(** * zzimage: credential pool scheduler and generation orchestrator

    A shallow embedding of [app/database.py] (the cookie usage counters),
    [app/services/cookie_pool.py] (round-robin selection under a daily quota),
    [app/services/image_gen.py] (the retry / failover orchestrator) and the
    handler of [app/routers/generate.py], followed by the properties proved
    about them.

    The Python code runs against three ambient things: the wall clock
    ([datetime.now()]), the SQLite tables and the HTTP backend.  They are made
    explicit here: the tables and the pool object live in a [World] that every
    operation threads through, while the clock and the backend are oracles of
    an [Env], indexed by how many times they have been consulted so far.  No
    assumption is made on either oracle, so a statement proved for every [Env]
    holds for every timing and every backend behaviour.  Every call of a [db]
    method by the pool's scheduling or by the generator, every HTTP post and
    every sleep is also appended to [trace], which is how the properties speak
    about what an operation did.

    Every operation is run to completion, one after the other.  The Python
    coroutines give way to other requests where they await the network: what
    another request or an administrator does to the store or the pool in
    between is not part of this model, and the properties of a whole call of
    [generate] or [generate_with_retry] are properties of a call that runs
    alone. *)

From Stdlib Require Import ZArith List String Bool Lia DecimalString.
From Stdlib Require Import Permutation Sorted.
Import ListNotations.
Local Open Scope string_scope.
Local Open Scope Z_scope.

(** ** Python values *)

(** [datetime.now()]: microseconds of local wall-clock time. *)
Definition Time := Z.

(** The result of [strftime("%Y-%m-%d")]: the calendar day, kept as its day
    number (two instants have the same text exactly when they fall on the same
    day). *)
Definition Date := Z.

Definition strftime_date (t : Time) : Date := t / 86400000000.

(** [(a - b).total_seconds()], compared against a whole number of seconds. *)
Definition total_seconds_gt (a b : Time) (seconds : Z) : bool :=
  seconds * 1000000 <? a - b.

(** [str(n)] / [f"{n}"] for an [int]. *)
Definition str (n : Z) : string := NilZero.string_of_int (Z.to_int n).

(** Truthiness of an [Optional[str]]: [None] and the empty string are falsy. *)
Definition truthy (s : option string) : bool :=
  match s with
  | None => false
  | Some s => negb (String.eqb s "")
  end.

(** [s or d] for an [Optional[str]] and [n or d] for an [Optional[int]]. *)
Definition or_str (s : option string) (d : string) : string :=
  match s with
  | Some s => if String.eqb s "" then d else s
  | None => d
  end.

Definition or_int (n : option Z) (d : Z) : Z :=
  match n with
  | Some n => if n =? 0 then d else n
  | None => d
  end.

(** [f"{x}"] for an [Optional[str]]. *)
Definition fmt_opt (s : option string) : string :=
  match s with
  | None => "None"
  | Some s => s
  end.

(** ** app/config.py *)

Definition MAX_IMAGE_SIZE : Z := 2048.
Definition MIN_IMAGE_SIZE : Z := 256.

(** ** Data classes of app/database.py *)

(** [last_used], [created_at] and [updated_at] are timestamps that SQLite
    writes and that neither the pool nor the generator reads: they are left
    out.  [daily_used] and [daily_date] are nullable columns, [None] is NULL. *)
Module Cookie.
Record t := mk {
  id : Z;
  name : string;
  cookie_value : string;
  socks5_proxy : option string;
  is_active : bool;
  use_count : Z;
  error_count : Z;
  daily_used : option Z;
  daily_date : option Date
}.
End Cookie.

Module GenerationLog.
Record t := mk {
  prompt : string;
  width : Z;
  height : Z;
  cookie_id : option Z;
  api_key_id : option Z;
  status : string;
  error_message : option string;
  image_url : option string
}.
End GenerationLog.

(** ** Data class of app/services/image_gen.py *)

Module GenerationResult.
Record t := mk {
  success : bool;
  image_url : option string;
  image_base64 : option string;
  error : option string;
  cookie_id : option Z
}.
End GenerationResult.

(** ** The HTTP backend *)

(** The JSON body sent by [_do_generate]. *)
Record Payload := mkPayload {
  p_prompt : string;
  p_model : string;
  p_size : string;
  p_num_inference_steps : Z;
  p_negative_prompt : option string
}.

(** What leaves the process on one [session.post]: the proxy of the session,
    the [Authorization] header and the payload. *)
Record Request := mkRequest {
  rq_proxy : option string;
  rq_authorization : string;
  rq_payload : Payload
}.

(** What the code reads in a response body.  [JsonInvalid e]: both
    [response.json()] and [json.loads] raise, or the document has not the
    shape the code indexes.  [JsonNoData]: no ["data"] key or an empty list.
    [JsonImage b64 url]: the [b64_json] and [url] of [data[0]].
    [JsonError m]: the [error.message] of the document, if any. *)
Inductive Json :=
| JsonInvalid (e : string)
| JsonNoData
| JsonImage (b64_json url : option string)
| JsonError (message : option string).

(** One [session.post]: a response, an [aiohttp.ClientError], or any other
    exception (a timeout of the session, for one). *)
Inductive Response :=
| Http (status : Z) (text : string) (json : Json)
| ClientError (e : string)
| OtherException (e : string).

(** ** The world *)

Inductive Event :=
| DbGetAllCookies (active_only : bool)
| DbGetCookieDailyUsage (cookie_id : Z)
| DbUpdateCookieUsage (cookie_id : Z) (success : bool)
| DbGetCookie (cookie_id : Z)
| DbAddGenerationLog (log : GenerationLog.t)
| SessionPost (cookie_id : Z) (rq : Request)
| Sleep (retry_delays : Z).

(** [cookies] and [generation_logs] are the two tables, in rowid order;
    [_current_index], [_cookies_cache] and [_cache_time] are the attributes of
    the one [CookiePool] object; [clock_reads] and [posts] count the calls of
    [datetime.now()] and [session.post] so far. *)
Record World := mkWorld {
  cookies : list Cookie.t;
  generation_logs : list GenerationLog.t;
  _current_index : nat;
  _cookies_cache : list Cookie.t;
  _cache_time : option Time;
  clock_reads : nat;
  posts : nat;
  trace : list Event
}.

(** The configuration read from the process environment in app/config.py,
    whether [aiohttp_socks] could be imported, the connector
    [ProxyConnector.from_url] builds ([None] when it raises), and the two
    oracles. *)
Record Env := mkEnv {
  DAILY_QUOTA : Z;
  MAX_RETRIES : Z;
  HAS_SOCKS_SUPPORT : bool;
  proxy_connector_from_url : string -> option string;
  clock : nat -> Time;
  backend : nat -> Request -> Response
}.

(** ** State and exceptions *)

Inductive Exn := IndexError.

Inductive Res (A : Type) :=
| Ok (a : A)
| Raise (e : Exn).
Arguments Ok {A} a.
Arguments Raise {A} e.

Definition M (A : Type) := World -> Res A * World.

Definition ret {A} (a : A) : M A := fun w => (Ok a, w).

Definition bind {A B} (m : M A) (k : A -> M B) : M B :=
  fun w =>
    match m w with
    | (Ok a, w') => k a w'
    | (Raise e, w') => (Raise e, w')
    end.

Definition raise {A} (e : Exn) : M A := fun w => (Raise e, w).

Notation "x <- m ;; k" := (bind m (fun x => k))
  (at level 61, m at next level, right associativity).
Notation "m ;;; k" := (bind m (fun _ => k))
  (at level 61, right associativity).

Definition get : M World := fun w => (Ok w, w).
Definition modify (f : World -> World) : M unit := fun w => (Ok tt, f w).

Definition set_cookies (l : list Cookie.t) (w : World) : World :=
  mkWorld l (generation_logs w) (_current_index w) (_cookies_cache w)
          (_cache_time w) (clock_reads w) (posts w) (trace w).
Definition set_generation_logs (l : list GenerationLog.t) (w : World) : World :=
  mkWorld (cookies w) l (_current_index w) (_cookies_cache w)
          (_cache_time w) (clock_reads w) (posts w) (trace w).
Definition set_current_index (i : nat) (w : World) : World :=
  mkWorld (cookies w) (generation_logs w) i (_cookies_cache w)
          (_cache_time w) (clock_reads w) (posts w) (trace w).
Definition set_cookies_cache (l : list Cookie.t) (w : World) : World :=
  mkWorld (cookies w) (generation_logs w) (_current_index w) l
          (_cache_time w) (clock_reads w) (posts w) (trace w).
Definition set_cache_time (t : option Time) (w : World) : World :=
  mkWorld (cookies w) (generation_logs w) (_current_index w) (_cookies_cache w)
          t (clock_reads w) (posts w) (trace w).
Definition set_clock_reads (n : nat) (w : World) : World :=
  mkWorld (cookies w) (generation_logs w) (_current_index w) (_cookies_cache w)
          (_cache_time w) n (posts w) (trace w).
Definition set_posts (n : nat) (w : World) : World :=
  mkWorld (cookies w) (generation_logs w) (_current_index w) (_cookies_cache w)
          (_cache_time w) (clock_reads w) n (trace w).
Definition set_trace (l : list Event) (w : World) : World :=
  mkWorld (cookies w) (generation_logs w) (_current_index w) (_cookies_cache w)
          (_cache_time w) (clock_reads w) (posts w) l.

Definition emit (e : Event) : M unit :=
  modify (fun w => set_trace (trace w ++ [e]) w).

(** [datetime.now()]. *)
Definition datetime_now (E : Env) : M Time :=
  fun w => (Ok (clock E (clock_reads w)), set_clock_reads (S (clock_reads w)) w).

(** [asyncio.sleep(RETRY_DELAY * n)]: time passes, which the clock oracle
    already allows at any point; only the event is kept. *)
Definition asyncio_sleep (n : Z) : M unit := emit (Sleep n).

(** [session.post(...)] on the session opened for the cookie [cookie_id]. *)
Definition session_post (E : Env) (cookie_id : Z) (rq : Request) : M Response :=
  emit (SessionPost cookie_id rq) ;;;
  fun w => (Ok (backend E (posts w) rq), set_posts (S (posts w)) w).

(** ** app/database.py: the methods of [Database] on cookies and logs *)

Module Database.

(** [ORDER BY] as a stable insertion sort: rows with equal keys keep their
    table order. *)
Fixpoint insert_by (le : Cookie.t -> Cookie.t -> bool) (x : Cookie.t)
         (l : list Cookie.t) : list Cookie.t :=
  match l with
  | [] => [x]
  | y :: l' => if le x y then x :: y :: l' else y :: insert_by le x l'
  end.

Definition order_by (le : Cookie.t -> Cookie.t -> bool)
           (l : list Cookie.t) : list Cookie.t :=
  fold_right (insert_by le) [] l.

Definition use_count_asc (a b : Cookie.t) : bool :=
  Cookie.use_count a <=? Cookie.use_count b.

Definition id_desc (a b : Cookie.t) : bool :=
  Cookie.id b <=? Cookie.id a.

(** [SELECT * FROM cookies WHERE is_active = 1 ORDER BY use_count ASC], or
    [SELECT * FROM cookies ORDER BY id DESC]. *)
Definition select_all (active_only : bool) (table : list Cookie.t)
  : list Cookie.t :=
  if active_only
  then order_by use_count_asc (filter Cookie.is_active table)
  else order_by id_desc table.

(** [SELECT ... FROM cookies WHERE id = ?] followed by [fetchone()]. *)
Definition select_by_id (cookie_id : Z) (table : list Cookie.t)
  : option Cookie.t :=
  find (fun c => Cookie.id c =? cookie_id) table.

(** [UPDATE cookies SET ... WHERE id = ?]. *)
Definition update_where_id (cookie_id : Z) (f : Cookie.t -> Cookie.t)
           (table : list Cookie.t) : list Cookie.t :=
  map (fun c => if Cookie.id c =? cookie_id then f c else c) table.

(** [row['daily_date'] == today]. *)
Definition date_is (d : option Date) (today : Date) : bool :=
  match d with
  | Some d => d =? today
  | None => false
  end.

(** [SET daily_used = 0, daily_date = ?]. *)
Definition reset_daily (today : Date) (c : Cookie.t) : Cookie.t :=
  Cookie.mk (Cookie.id c) (Cookie.name c) (Cookie.cookie_value c)
            (Cookie.socks5_proxy c) (Cookie.is_active c) (Cookie.use_count c)
            (Cookie.error_count c) (Some 0) (Some today).

(** [SET use_count = use_count + 1, daily_used = daily_used + 1,
    daily_date = ?]; in SQL, NULL + 1 is NULL. *)
Definition count_success (today : Date) (c : Cookie.t) : Cookie.t :=
  Cookie.mk (Cookie.id c) (Cookie.name c) (Cookie.cookie_value c)
            (Cookie.socks5_proxy c) (Cookie.is_active c)
            (Cookie.use_count c + 1) (Cookie.error_count c)
            (option_map (fun n => n + 1) (Cookie.daily_used c)) (Some today).

(** [SET error_count = error_count + 1]. *)
Definition count_error (c : Cookie.t) : Cookie.t :=
  Cookie.mk (Cookie.id c) (Cookie.name c) (Cookie.cookie_value c)
            (Cookie.socks5_proxy c) (Cookie.is_active c) (Cookie.use_count c)
            (Cookie.error_count c + 1) (Cookie.daily_used c)
            (Cookie.daily_date c).

Definition get_cookie (cookie_id : Z) : M (option Cookie.t) :=
  emit (DbGetCookie cookie_id) ;;;
  w <- get ;;
  ret (select_by_id cookie_id (cookies w)).

Definition get_all_cookies (active_only : bool) : M (list Cookie.t) :=
  emit (DbGetAllCookies active_only) ;;;
  w <- get ;;
  ret (select_all active_only (cookies w)).

Definition update_cookie_usage (E : Env) (cookie_id : Z) (success : bool)
  : M unit :=
  now <- datetime_now E ;;
  let today := strftime_date now in
  emit (DbUpdateCookieUsage cookie_id success) ;;;
  w <- get ;;
  (match select_by_id cookie_id (cookies w) with
   | Some row =>
       if negb (date_is (Cookie.daily_date row) today)
       then modify (fun w =>
              set_cookies
                (update_where_id cookie_id (reset_daily today) (cookies w)) w)
       else ret tt
   | None => ret tt
   end) ;;;
  if success
  then modify (fun w =>
         set_cookies
           (update_where_id cookie_id (count_success today) (cookies w)) w)
  else modify (fun w =>
         set_cookies (update_where_id cookie_id count_error (cookies w)) w).

(** The value [get_cookie_daily_usage] computes from the table once it
    knows the day: [row['daily_used'] or 0] on a row of today, 0 on a row of
    another day or on no row. *)
Definition daily_usage_on (today : Date) (cookie_id : Z)
           (table : list Cookie.t) : Z :=
  match select_by_id cookie_id table with
  | Some row =>
      if date_is (Cookie.daily_date row) today
      then match Cookie.daily_used row with
           | Some n => n
           | None => 0
           end
      else 0
  | None => 0
  end.

Definition get_cookie_daily_usage (E : Env) (cookie_id : Z) : M Z :=
  now <- datetime_now E ;;
  let today := strftime_date now in
  emit (DbGetCookieDailyUsage cookie_id) ;;;
  w <- get ;;
  ret (daily_usage_on today cookie_id (cookies w)).

Definition add_generation_log (log : GenerationLog.t) : M unit :=
  emit (DbAddGenerationLog log) ;;;
  modify (fun w => set_generation_logs (generation_logs w ++ [log]) w).

(** [SET name = ?, cookie_value = ?, socks5_proxy = ?, is_active = ?]. *)
Definition set_editable (cookie c : Cookie.t) : Cookie.t :=
  Cookie.mk (Cookie.id c) (Cookie.name cookie) (Cookie.cookie_value cookie)
            (Cookie.socks5_proxy cookie) (Cookie.is_active cookie)
            (Cookie.use_count c) (Cookie.error_count c) (Cookie.daily_used c)
            (Cookie.daily_date c).

(** [cursor.rowcount > 0] after a statement with [WHERE id = ?]. *)
Definition matched (cookie_id : Z) (table : list Cookie.t) : bool :=
  existsb (fun c => Cookie.id c =? cookie_id) table.

Definition update_cookie (cookie : Cookie.t) : M bool :=
  w <- get ;;
  modify (set_cookies
            (update_where_id (Cookie.id cookie) (set_editable cookie)
                             (cookies w))) ;;;
  ret (matched (Cookie.id cookie) (cookies w)).

Definition delete_cookie (cookie_id : Z) : M bool :=
  w <- get ;;
  modify (set_cookies
            (filter (fun c => negb (Cookie.id c =? cookie_id)) (cookies w))) ;;;
  ret (matched cookie_id (cookies w)).

(** [UPDATE cookies SET daily_used = 0, daily_date = ? WHERE id = ? AND
    (daily_date IS NULL OR daily_date != ?)]. *)
Definition reset_stale (today : Date) (cookie_id : Z) (table : list Cookie.t)
  : list Cookie.t :=
  map (fun c => if (Cookie.id c =? cookie_id)
                   && negb (date_is (Cookie.daily_date c) today)
                then reset_daily today c else c) table.

Definition reset_daily_usage_if_needed (E : Env) (cookie_id : Z) : M unit :=
  now <- datetime_now E ;;
  let today := strftime_date now in
  modify (fun w => set_cookies (reset_stale today cookie_id (cookies w)) w).

End Database.

(** ** app/services/cookie_pool.py *)

Module CookiePool.

Definition _cache_ttl : Z := 30.

Definition _refresh_cache (E : Env) (force : bool) : M unit :=
  now <- datetime_now E ;;
  w <- get ;;
  if force
     || match _cache_time w with
        | None => true
        | Some t => total_seconds_gt now t _cache_ttl
        end
  then
    l <- Database.get_all_cookies true ;;
    modify (set_cookies_cache l) ;;;
    modify (set_cache_time (Some now)) ;;;
    w <- get ;;
    if (List.length (_cookies_cache w) <=? _current_index w)%nat
    then modify (set_current_index 0%nat)
    else ret tt
  else ret tt.

(** The [while attempts < max_attempts] loop of [get_next_cookie];
    [remaining] is [max_attempts - attempts].  A list index out of range
    raises [IndexError]. *)
Fixpoint probe (E : Env) (remaining : nat) : M (option Cookie.t) :=
  match remaining with
  | O => ret None
  | S remaining' =>
      w <- get ;;
      match nth_error (_cookies_cache w) (_current_index w) with
      | None => raise IndexError
      | Some cookie =>
          modify (set_current_index
                    ((_current_index w + 1) mod List.length (_cookies_cache w))%nat) ;;;
          daily_used <- Database.get_cookie_daily_usage E (Cookie.id cookie) ;;
          if daily_used <? DAILY_QUOTA E
          then ret (Some cookie)
          else probe E remaining'
      end
  end.

Definition get_next_cookie (E : Env) : M (option Cookie.t) :=
  _refresh_cache E false ;;;
  w <- get ;;
  match _cookies_cache w with
  | [] => ret None
  | _ :: _ => probe E (List.length (_cookies_cache w))
  end.

Definition get_cookie_remaining_quota (E : Env) (cookie_id : Z) : M Z :=
  daily_used <- Database.get_cookie_daily_usage E cookie_id ;;
  ret (Z.max 0 (DAILY_QUOTA E - daily_used)).

Definition mark_cookie_used (E : Env) (cookie_id : Z) (success : bool)
  : M unit :=
  Database.update_cookie_usage E cookie_id success ;;;
  (if negb success
   then _ <- Database.get_cookie cookie_id ;; ret tt
   else ret tt) ;;;
  _refresh_cache E true.

(** The four [Optional] arguments are applied when they are not [None]. *)
Definition update_cookie (cookie_id : Z) (name cookie_value : option string)
           (socks5_proxy : option string) (is_active : option bool) : M bool :=
  cookie <- Database.get_cookie cookie_id ;;
  match cookie with
  | None => ret false
  | Some cookie =>
      Database.update_cookie
        (Cookie.mk (Cookie.id cookie)
           (match name with Some v => v | None => Cookie.name cookie end)
           (match cookie_value with
            | Some v => v
            | None => Cookie.cookie_value cookie
            end)
           (match socks5_proxy with
            | Some v => Some v
            | None => Cookie.socks5_proxy cookie
            end)
           (match is_active with
            | Some v => v
            | None => Cookie.is_active cookie
            end)
           (Cookie.use_count cookie) (Cookie.error_count cookie)
           (Cookie.daily_used cookie) (Cookie.daily_date cookie))
  end.

Definition delete_cookie (cookie_id : Z) : M bool :=
  Database.delete_cookie cookie_id.

End CookiePool.

(** ** app/services/image_gen.py *)

(** The keyword arguments of [generate] and [generate_with_retry]. *)
Record GenerateArgs := mkArgs {
  prompt : string;
  width : Z;
  height : Z;
  negative_prompt : option string;
  model : option string;
  num_inference_steps : option Z;
  api_key_id : option Z
}.

Module ImageGenerator.

Definition DEFAULT_MODEL : string := "z-image-turbo".
Definition DEFAULT_STEPS : Z := 9.

Definition _validate_size (width height : Z) : bool * string :=
  if (width <? MIN_IMAGE_SIZE) || (height <? MIN_IMAGE_SIZE)
  then (false, "尺寸不能小于 " ++ str MIN_IMAGE_SIZE ++ "x" ++ str MIN_IMAGE_SIZE)
  else if (width >? MAX_IMAGE_SIZE) || (height >? MAX_IMAGE_SIZE)
  then (false, "尺寸不能大于 " ++ str MAX_IMAGE_SIZE ++ "x" ++ str MAX_IMAGE_SIZE)
  else (true, "").

Definition _create_connector (E : Env) (proxy : option string)
  : option string :=
  match proxy with
  | Some url =>
      if truthy proxy && HAS_SOCKS_SUPPORT E
      then proxy_connector_from_url E url
      else None
  | None => None
  end.

(** A result with [success=False]. *)
Definition failed (error : string) (cookie_id : option Z)
  : GenerationResult.t :=
  GenerationResult.mk false None None (Some error) cookie_id.

(** The [for attempt in range(MAX_RETRIES)] loop of [_do_generate];
    [remaining] is the number of iterations left, [attempt] the loop
    variable. *)
Fixpoint attempts (E : Env) (cookie : Cookie.t) (rq : Request)
         (remaining : nat) (attempt : Z) : M GenerationResult.t :=
  match remaining with
  | O => ret (failed "超过最大重试次数" (Some (Cookie.id cookie)))
  | S remaining' =>
      response <- session_post E (Cookie.id cookie) rq ;;
      match response with
      | Http status response_text data =>
          if status =? 200 then
            match data with
            | JsonInvalid e =>
                ret (failed ("内部错误: " ++ e) (Some (Cookie.id cookie)))
            | JsonImage image_base64 image_url =>
                if truthy image_base64 then
                  ret (GenerationResult.mk true image_url image_base64 None
                         (Some (Cookie.id cookie)))
                else if truthy image_url then
                  ret (GenerationResult.mk true image_url None None
                         (Some (Cookie.id cookie)))
                else
                  ret (failed "API返回数据中没有图片" (Some (Cookie.id cookie)))
            | JsonNoData | JsonError _ =>
                ret (failed "API返回数据格式异常" (Some (Cookie.id cookie)))
            end
          else if status =? 429 then
            asyncio_sleep (attempt + 1) ;;;
            attempts E cookie rq remaining' (attempt + 1)
          else if status =? 401 then
            ret (failed "Cookie/Token无效或已过期" (Some (Cookie.id cookie)))
          else if status =? 400 then
            let error_msg :=
              match data with
              | JsonError (Some message) => message
              | _ => response_text
              end in
            ret (failed ("请求参数错误: " ++ error_msg)
                   (Some (Cookie.id cookie)))
          else
            ret (failed ("API错误: " ++ str status) (Some (Cookie.id cookie)))
      | ClientError e =>
          if attempt <? MAX_RETRIES E - 1 then
            asyncio_sleep 1 ;;;
            attempts E cookie rq remaining' (attempt + 1)
          else
            ret (failed ("请求失败: " ++ e) (Some (Cookie.id cookie)))
      | OtherException e =>
          ret (failed ("内部错误: " ++ e) (Some (Cookie.id cookie)))
      end
  end.

(** The session, headers and payload [_do_generate] builds before its
    loop. *)
Definition _request (E : Env) (cookie : Cookie.t) (prompt : string)
           (width height : Z) (negative_prompt : option string)
           (model : string) (num_inference_steps : Z) : Request :=
  let headers_authorization := "Bearer " ++ Cookie.cookie_value cookie in
  let payload :=
    mkPayload prompt model (str width ++ "x" ++ str height)
              num_inference_steps
              (if truthy negative_prompt then negative_prompt else None) in
  mkRequest (_create_connector E (Cookie.socks5_proxy cookie))
            headers_authorization payload.

Definition _do_generate (E : Env) (cookie : Cookie.t) (prompt : string)
           (width height : Z) (negative_prompt : option string)
           (model : string) (num_inference_steps : Z)
  : M GenerationResult.t :=
  attempts E cookie
           (_request E cookie prompt width height negative_prompt model
                     num_inference_steps)
           (Z.to_nat (MAX_RETRIES E)) 0.

Definition generate (E : Env) (a : GenerateArgs) : M GenerationResult.t :=
  let (valid, error_msg) := _validate_size (width a) (height a) in
  if negb valid then
    ret (GenerationResult.mk false None None (Some error_msg) None)
  else
    cookie <- CookiePool.get_next_cookie E ;;
    match cookie with
    | None =>
        ret (GenerationResult.mk false None None
               (Some "没有可用的Cookie，请先添加Cookie") None)
    | Some cookie =>
        result <- _do_generate E cookie (prompt a) (width a) (height a)
                    (negative_prompt a)
                    (or_str (model a) DEFAULT_MODEL)
                    (or_int (num_inference_steps a) DEFAULT_STEPS) ;;
        CookiePool.mark_cookie_used E (Cookie.id cookie)
          (GenerationResult.success result) ;;;
        Database.add_generation_log
          (GenerationLog.mk (prompt a) (width a) (height a)
             (Some (Cookie.id cookie)) (api_key_id a)
             (if GenerationResult.success result then "success" else "failed")
             (GenerationResult.error result)
             (GenerationResult.image_url result)) ;;;
        ret result
    end.

(** The [for i in range(max_cookie_retries)] loop of
    [generate_with_retry]. *)
Fixpoint retries (E : Env) (a : GenerateArgs) (remaining : nat)
         (last_error : option string) : M GenerationResult.t :=
  match remaining with
  | O =>
      ret (GenerationResult.mk false None None
             (Some ("所有Cookie都失败: " ++ fmt_opt last_error)) None)
  | S remaining' =>
      result <- generate E a ;;
      if GenerationResult.success result
      then ret result
      else retries E a remaining' (GenerationResult.error result)
  end.

Definition generate_with_retry (E : Env) (a : GenerateArgs)
           (max_cookie_retries : Z) : M GenerationResult.t :=
  retries E a (Z.to_nat max_cookie_retries) None.

End ImageGenerator.

(** ** app/routers/generate.py *)

(** [GenerateRequest], after FastAPI has validated the body. *)
Module GenerateRequest.
Record t := mk {
  prompt : string;
  negative_prompt : option string;
  width : Z;
  height : Z;
  model : option string;
  num_inference_steps : option Z
}.
End GenerateRequest.

Module GenerateResponse.
Record t := mk {
  success : bool;
  image_url : option string;
  image_base64 : option string;
  error : option string
}.
End GenerateResponse.

Module Router.

(** [max_cookie_retries] and [api_key_id] are left to their defaults. *)
Definition generate_image (E : Env) (request : GenerateRequest.t)
  : M GenerateResponse.t :=
  result <- ImageGenerator.generate_with_retry E
              (mkArgs (GenerateRequest.prompt request)
                      (GenerateRequest.width request)
                      (GenerateRequest.height request)
                      (GenerateRequest.negative_prompt request)
                      (GenerateRequest.model request)
                      (GenerateRequest.num_inference_steps request)
                      None)
              3 ;;
  ret (GenerateResponse.mk (GenerationResult.success result)
         (GenerationResult.image_url result)
         (GenerationResult.image_base64 result)
         (GenerationResult.error result)).

End Router.

(** ** Vocabulary of the properties *)

(** *** Traces *)

(** The events an operation appended to the trace. *)
Definition appended (w w' : World) (evs : list Event) : Prop :=
  trace w' = (trace w ++ evs)%list.

(** The credentials probed, posted to and recorded in a list of events, and
    the log rows written. *)
Definition probed (evs : list Event) : list Z :=
  flat_map (fun e => match e with
                     | DbGetCookieDailyUsage i => [i]
                     | _ => []
                     end) evs.

Definition posted (evs : list Event) : list Z :=
  flat_map (fun e => match e with
                     | SessionPost i _ => [i]
                     | _ => []
                     end) evs.

Definition recorded (evs : list Event) : list (Z * bool) :=
  flat_map (fun e => match e with
                     | DbUpdateCookieUsage i s => [(i, s)]
                     | _ => []
                     end) evs.

Definition logged (evs : list Event) : list GenerationLog.t :=
  flat_map (fun e => match e with
                     | DbAddGenerationLog l => [l]
                     | _ => []
                     end) evs.

(** What a selection may do, and what the retry loop of [_do_generate] may
    do. *)
Definition selection_event (e : Event) : Prop :=
  e = DbGetAllCookies true \/ exists i, e = DbGetCookieDailyUsage i.

Definition network_event (ck : Cookie.t) (rq : Request) (e : Event) : Prop :=
  e = SessionPost (Cookie.id ck) rq \/ exists n, e = Sleep n.

(** *** The pool *)

(** The pool object never indexes its cache out of range. *)
Definition pool_ok (w : World) : Prop :=
  _cookies_cache w = [] \/
  (_current_index w < List.length (_cookies_cache w))%nat.

(** The cache is either not loaded yet or what the store would load now. *)
Definition synced (w : World) : Prop :=
  _cache_time w = None \/
  _cookies_cache w = Database.select_all true (cookies w).

(** The daily usage the store reports for [cookie_id] at the clock reading
    number [tick]. *)
Definition usage_at (E : Env) (w : World) (tick : nat) (cookie_id : Z) : Z :=
  Database.daily_usage_on (strftime_date (clock E tick)) cookie_id (cookies w).

(** No credential ever reaches the quota. *)
Definition unlimited (E : Env) (w : World) : Prop :=
  forall tick cookie_id, usage_at E w tick cookie_id < DAILY_QUOTA E.

(** Every clock reading falls on day [d]. *)
Definition same_day (E : Env) (d : Date) : Prop :=
  forall tick, strftime_date (clock E tick) = d.

(** Every cached credential has used up day [d]. *)
Definition exhausted (E : Env) (d : Date) (w : World) : Prop :=
  forall ck, In ck (_cookies_cache w) ->
    DAILY_QUOTA E <= Database.daily_usage_on d (Cookie.id ck) (cookies w).

(** The cache positions a selection visits: [count] positions from [cursor],
    wrapping at [size]; and the ids found there. *)
Definition positions (cursor size count : nat) : list nat :=
  map (fun j => ((cursor + j) mod size)%nat) (seq 0 count).

Definition cookie_ids_at (L : list Cookie.t) (ps : list nat) : list (option Z) :=
  map (fun p => option_map Cookie.id (nth_error L p)) ps.

(** [k] selections in a row, with their results. *)
Fixpoint select_many (E : Env) (k : nat) : M (list (option Cookie.t)) :=
  match k with
  | O => ret []
  | S k' =>
      c <- CookiePool.get_next_cookie E ;;
      cs <- select_many E k' ;;
      ret (c :: cs)
  end.

(** *** Worlds after an operation *)

(** Whether [_refresh_cache] finds the cache too old at its clock reading. *)
Definition stale (E : Env) (w : World) : bool :=
  match _cache_time w with
  | None => true
  | Some t => total_seconds_gt (clock E (clock_reads w)) t CookiePool._cache_ttl
  end.

Definition reloaded (E : Env) (w : World) : World :=
  let l := Database.select_all true (cookies w) in
  mkWorld (cookies w) (generation_logs w)
          (if (List.length l <=? _current_index w)%nat
           then 0%nat else _current_index w)
          l (Some (clock E (clock_reads w))) (S (clock_reads w)) (posts w)
          (trace w ++ [DbGetAllCookies true]).

Definition refreshed (E : Env) (force : bool) (w : World) : World :=
  if force || stale E w
  then reloaded E w
  else set_clock_reads (S (clock_reads w)) w.

Definition updated_table (today : Date) (cookie_id : Z) (success : bool)
           (table : list Cookie.t) : list Cookie.t :=
  let table1 :=
    match Database.select_by_id cookie_id table with
    | Some row =>
        if negb (Database.date_is (Cookie.daily_date row) today)
        then Database.update_where_id cookie_id (Database.reset_daily today) table
        else table
    | None => table
    end in
  if success
  then Database.update_where_id cookie_id (Database.count_success today) table1
  else Database.update_where_id cookie_id Database.count_error table1.

Definition usage_updated (E : Env) (cookie_id : Z) (success : bool) (w : World)
  : World :=
  set_cookies
    (updated_table (strftime_date (clock E (clock_reads w))) cookie_id success
                   (cookies w))
    (set_trace (trace w ++ [DbUpdateCookieUsage cookie_id success])
               (set_clock_reads (S (clock_reads w)) w)).

Definition marked (E : Env) (cookie_id : Z) (success : bool) (w : World)
  : World :=
  let w1 := usage_updated E cookie_id success w in
  refreshed E true
    (if success then w1 else set_trace (trace w1 ++ [DbGetCookie cookie_id]) w1).

Definition mark_events (cookie_id : Z) (success : bool) : list Event :=
  DbUpdateCookieUsage cookie_id success
  :: (if success then [] else [DbGetCookie cookie_id]) ++ [DbGetAllCookies true].

Definition post_added (cookie_id : Z) (rq : Request) (w : World) : World :=
  set_posts (S (posts w)) (set_trace (trace w ++ [SessionPost cookie_id rq]) w).

Definition log_added (log : GenerationLog.t) (w : World) : World :=
  set_generation_logs (generation_logs w ++ [log])
    (set_trace (trace w ++ [DbAddGenerationLog log]) w).

(** *** The orchestrator *)

Definition valid_size (a : GenerateArgs) : bool :=
  fst (ImageGenerator._validate_size (width a) (height a)).

(** The request [generate] sends for [a] with [cookie], and the log row it
    writes for a result. *)
Definition request_of (E : Env) (cookie : Cookie.t) (a : GenerateArgs) : Request :=
  ImageGenerator._request E cookie (prompt a) (width a) (height a)
    (negative_prompt a) (or_str (model a) ImageGenerator.DEFAULT_MODEL)
    (or_int (num_inference_steps a) ImageGenerator.DEFAULT_STEPS).

Definition log_of (a : GenerateArgs) (cookie : Cookie.t)
           (result : GenerationResult.t) : GenerationLog.t :=
  GenerationLog.mk (prompt a) (width a) (height a) (Some (Cookie.id cookie))
    (api_key_id a)
    (if GenerationResult.success result then "success" else "failed")
    (GenerationResult.error result) (GenerationResult.image_url result).

(** The credential a call of [generate] obtains, if any. *)
Definition obtained (E : Env) (a : GenerateArgs) (w : World) : option Cookie.t :=
  if valid_size a
  then match fst (CookiePool.get_next_cookie E w) with
       | Ok c => c
       | Raise _ => None
       end
  else None.

(** The results the orchestrator builds on its failure paths. *)
Definition no_cookie : GenerationResult.t :=
  GenerationResult.mk false None None
    (Some "没有可用的Cookie，请先添加Cookie") None.

Definition auth_rejected (cookie : Cookie.t) : GenerationResult.t :=
  ImageGenerator.failed "Cookie/Token无效或已过期" (Some (Cookie.id cookie)).

Definition bad_request_message (text : string) (data : Json) : string :=
  "请求参数错误: " ++
  match data with
  | JsonError (Some message) => message
  | _ => text
  end.

Definition bad_request (cookie : Cookie.t) (text : string) (data : Json)
  : GenerationResult.t :=
  ImageGenerator.failed (bad_request_message text data) (Some (Cookie.id cookie)).

Definition all_failed (last_error : option string) : GenerationResult.t :=
  GenerationResult.mk false None None
    (Some ("所有Cookie都失败: " ++ fmt_opt last_error)) None.

(** How a record of the usage counters and a row of the log name a
    credential and an outcome. *)
Definition outcome_of_record (r : Z * bool) : option Z * string :=
  (Some (fst r), if snd r then "success" else "failed").

Definition outcome_of_log (l : GenerationLog.t) : option Z * string :=
  (GenerationLog.cookie_id l, GenerationLog.status l).

(** *** Renaming credentials *)

(** The same world with other credential ids ([f]) and labels ([g]). *)
Definition rename_cookie (f : Z -> Z) (g : string -> string) (c : Cookie.t)
  : Cookie.t :=
  Cookie.mk (f (Cookie.id c)) (g (Cookie.name c)) (Cookie.cookie_value c)
            (Cookie.socks5_proxy c) (Cookie.is_active c) (Cookie.use_count c)
            (Cookie.error_count c) (Cookie.daily_used c) (Cookie.daily_date c).

Definition rename_log (f : Z -> Z) (l : GenerationLog.t) : GenerationLog.t :=
  GenerationLog.mk (GenerationLog.prompt l) (GenerationLog.width l)
                   (GenerationLog.height l)
                   (option_map f (GenerationLog.cookie_id l))
                   (GenerationLog.api_key_id l) (GenerationLog.status l)
                   (GenerationLog.error_message l) (GenerationLog.image_url l).

Definition rename_event (f : Z -> Z) (e : Event) : Event :=
  match e with
  | DbGetAllCookies b => DbGetAllCookies b
  | DbGetCookieDailyUsage i => DbGetCookieDailyUsage (f i)
  | DbUpdateCookieUsage i s => DbUpdateCookieUsage (f i) s
  | DbGetCookie i => DbGetCookie (f i)
  | DbAddGenerationLog l => DbAddGenerationLog (rename_log f l)
  | SessionPost i rq => SessionPost (f i) rq
  | Sleep n => Sleep n
  end.

Definition rename_world (f : Z -> Z) (g : string -> string) (w : World) : World :=
  mkWorld (map (rename_cookie f g) (cookies w))
          (map (rename_log f) (generation_logs w))
          (_current_index w)
          (map (rename_cookie f g) (_cookies_cache w))
          (_cache_time w) (clock_reads w) (posts w)
          (map (rename_event f) (trace w)).

Definition rename_result (f : Z -> Z) (r : GenerationResult.t)
  : GenerationResult.t :=
  GenerationResult.mk (GenerationResult.success r) (GenerationResult.image_url r)
                      (GenerationResult.image_base64 r) (GenerationResult.error r)
                      (option_map f (GenerationResult.cookie_id r)).

(** [m'] on the renamed world does what [m] does on the original one, up to
    the renaming [rA] of the value. *)
Definition renamed_outcome {A} (f : Z -> Z) (g : string -> string)
           (rA : A -> A) (p : Res A * World) : Res A * World :=
  (match fst p with
   | Ok a => Ok (rA a)
   | Raise e => Raise e
   end, rename_world f g (snd p)).

Definition sim {A} (f : Z -> Z) (g : string -> string) (rA : A -> A)
           (m' m : M A) : Prop :=
  forall w, m' (rename_world f g w) = renamed_outcome f g rA (m w).

(** *** The store, the retry loop and the results *)

(** Ascending [use_count], the order of the reloaded cache. *)
Definition by_use_count (a b : Cookie.t) : Prop :=
  Cookie.use_count a <= Cookie.use_count b.

(** The same credential with counters that did not go down. *)
Definition same_credential (c c' : Cookie.t) : Prop :=
  Cookie.id c' = Cookie.id c /\ Cookie.name c' = Cookie.name c /\
  Cookie.cookie_value c' = Cookie.cookie_value c /\
  Cookie.socks5_proxy c' = Cookie.socks5_proxy c /\
  Cookie.is_active c' = Cookie.is_active c /\
  Cookie.use_count c <= Cookie.use_count c' /\
  Cookie.error_count c <= Cookie.error_count c'.

Definition grown (table table' : list Cookie.t) : Prop :=
  Forall2 same_credential table table'.

(** The same counters under the same id. *)
Definition same_counters (c c' : Cookie.t) : Prop :=
  Cookie.id c' = Cookie.id c /\
  Cookie.use_count c' = Cookie.use_count c /\
  Cookie.error_count c' = Cookie.error_count c /\
  Cookie.daily_used c' = Cookie.daily_used c /\
  Cookie.daily_date c' = Cookie.daily_date c.

(** The row [update_cookie] writes for a stored one. *)
Definition edited (name cookie_value socks5_proxy : option string)
           (is_active : option bool) (row : Cookie.t) : Cookie.t :=
  Cookie.mk (Cookie.id row)
            (match name with Some v => v | None => Cookie.name row end)
            (match cookie_value with
             | Some v => v
             | None => Cookie.cookie_value row
             end)
            (match socks5_proxy with
             | Some v => Some v
             | None => Cookie.socks5_proxy row
             end)
            (match is_active with
             | Some v => v
             | None => Cookie.is_active row
             end)
            (Cookie.use_count row) (Cookie.error_count row)
            (Cookie.daily_used row) (Cookie.daily_date row).

(** The ids SQLite stores: 64-bit integers.  The [sqlite3] binding raises
    [OverflowError] on an argument outside this range, which the model does
    not; a statement about an id that is an argument and not the id of a
    stored row assumes it in range. *)
Definition sqlite_integer (i : Z) : Prop :=
  -9223372036854775808 <= i <= 9223372036854775807.

(** A row dated [d] whose [daily_used] is NULL: the one row on which
    [daily_used + 1] counts nothing. *)
Definition null_today (d : Date) (row : Cookie.t) : bool :=
  Database.date_is (Cookie.daily_date row) d
  && match Cookie.daily_used row with
     | Some _ => false
     | None => true
     end.

(** On day [d] no credential is above the quota. *)
Definition within_quota (E : Env) (d : Date) (w : World) : Prop :=
  forall i, Database.daily_usage_on d i (cookies w) <= DAILY_QUOTA E.

(** The backend answers 429 from its [n]-th call on. *)
Definition throttles_from (E : Env) (rq : Request) (n : nat) : Prop :=
  forall k, (n <= k)%nat -> exists text data, backend E k rq = Http 429 text data.

(** The backend raises [ClientError e] from its [n]-th call on. *)
Definition unreachable_from (E : Env) (rq : Request) (e : string) (n : nat) : Prop :=
  forall k, (n <= k)%nat -> backend E k rq = ClientError e.

(** [count] rounds of a post followed by a sleep of [first], [first + 1], ...
    retry delays. *)
Definition backoff_rounds (cookie_id : Z) (rq : Request) (first : Z) (count : nat)
  : list Event :=
  flat_map (fun k => [SessionPost cookie_id rq; Sleep (first + Z.of_nat k)])
           (seq 0 count).

(** [count] rounds of a post followed by a sleep of one retry delay. *)
Definition flat_rounds (cookie_id : Z) (rq : Request) (count : nat) : list Event :=
  flat_map (fun _ => [SessionPost cookie_id rq; Sleep 1]) (seq 0 count).

(** The responses that end the retry loop at once. *)
Definition final_response (r : Response) : Prop :=
  match r with
  | Http status _ _ => status <> 429
  | ClientError _ => False
  | OtherException _ => True
  end.

(** A success carries an image and no error; a failure carries an error and
    no image. *)
Definition well_formed (r : GenerationResult.t) : Prop :=
  if GenerationResult.success r
  then GenerationResult.error r = None /\
       truthy (GenerationResult.image_base64 r)
       || truthy (GenerationResult.image_url r) = true /\
       GenerationResult.cookie_id r <> None
  else GenerationResult.error r <> None /\
       GenerationResult.image_url r = None /\
       GenerationResult.image_base64 r = None.

(** ** Scenarios *)

(** Noon and the two sides of midnight, for a day number. *)
Definition noon (d : Date) : Time := d * 86400000000 + 43200000000.
Definition just_before (d : Date) : Time := d * 86400000000 - 100000.
Definition just_after (d : Date) : Time := d * 86400000000 + 100000.

(** A process that has just started: empty cache, cursor at 0. *)
Definition started (table : list Cookie.t) : World :=
  mkWorld table [] 0%nat [] None 0%nat 0%nat [].

Definition alice : Cookie.t :=
  Cookie.mk 1 "alice" "token-a" None true 0 0 (Some 0) None.
Definition bob : Cookie.t :=
  Cookie.mk 2 "bob" "token-b" None true 0 0 (Some 0) None.
Definition carol : Cookie.t :=
  Cookie.mk 3 "carol" "token-c" None true 0 0 (Some 0) None.

(** Two credentials last used on day 9. *)
Definition bob_old : Cookie.t :=
  Cookie.mk 2 "bob" "token-b" None true 500 2 (Some 3) (Some 9).
Definition carol_old : Cookie.t :=
  Cookie.mk 3 "carol" "token-c" None true 600 0 (Some 7) (Some 9).

(** [alice] after a hundred successes on day 10. *)
Definition alice_spent : Cookie.t :=
  Cookie.mk 1 "alice" "token-a" None true 100 0 (Some 100) (Some 10).

Definition a_cat : GenerateArgs := mkArgs "a cat" 512 512 None None None None.
Definition tiny : GenerateArgs := mkArgs "a cat" 100 100 None None None None.

Definition png : Response :=
  Http 200 "{...}" (JsonImage (Some "iVBORw0KGgo=") None).

(** The defaults of app/config.py, at noon of day 10, before a backend. *)
Definition env_at_noon (b : nat -> Request -> Response) : Env :=
  mkEnv 100 3 true Some (fun _ => noon 10) b.

Definition always (r : Response) : nat -> Request -> Response := fun _ _ => r.

Definition env_bad_request : Env :=
  env_at_noon (always (Http 400 "bad request" (JsonError (Some "invalid prompt")))).

Definition env_unauthorized : Env :=
  env_at_noon (always (Http 401 "unauthorized" (JsonError None))).

Definition env_ok : Env := env_at_noon (always png).

(** Throttled on the first two posts, served on the third. *)
Definition env_throttled : Env :=
  env_at_noon (fun n _ => if (n <? 2)%nat then Http 429 "slow down" (JsonError None)
                          else png).

(** The world one selection leaves when [alice] is spent and the two others
    were last used the day before. *)
Definition after_skip : World :=
  Eval vm_compute in
    snd (CookiePool.get_next_cookie env_ok
           (started [alice_spent; bob_old; carol_old])).

(** The first two clock readings fall just before day 11 starts, the later
    ones just after. *)
Definition env_midnight : Env :=
  mkEnv 100 3 true Some
        (fun n => if (n <? 2)%nat then just_before 11 else just_after 11)
        (always png).

(** A pool that still caches [alice] although the store has no row left. *)
Definition cached_only : World :=
  mkWorld [] [] 0%nat [alice] (Some (noon 10)) 0%nat 0%nat [].

Definition env_always_throttled : Env :=
  env_at_noon (always (Http 429 "slow down" (JsonError None))).

Definition env_unreachable : Env :=
  env_at_noon (always (ClientError "Cannot connect to host")).

Definition env_down : Env :=
  env_at_noon (always (Http 503 "Service Unavailable" (JsonInvalid "not json"))).

(** A 400 to the first post, an image to the later ones. *)
Definition env_rejected_once : Env :=
  env_at_noon (fun n _ => if (n <? 1)%nat
                          then Http 400 "bad request" (JsonError (Some "invalid prompt"))
                          else png).

(** [DAILY_QUOTA=-5] in the environment. *)
Definition env_negative_quota : Env :=
  mkEnv (-5) 3 true Some (fun _ => noon 10) (always png).

(** Two credentials behind two proxies, and a network on which no proxy
    answers: the exception text names the proxy. *)
Definition alice_proxied : Cookie.t :=
  Cookie.mk 1 "alice" "token-a" (Some "socks5://10.0.0.1:1080") true 0 0 (Some 0) None.
Definition bob_proxied : Cookie.t :=
  Cookie.mk 2 "bob" "token-b" (Some "socks5://10.0.0.2:1080") true 0 0 (Some 0) None.

Definition env_dead_proxies : Env :=
  env_at_noon (fun _ rq => ClientError ("Cannot connect to " ++ fmt_opt (rq_proxy rq))).

(** [MAX_RETRIES=0] in the environment. *)
Definition env_no_budget : Env :=
  mkEnv 100 0 true Some (fun _ => noon 10) (always png).

(** * Properties *)

Lemma refresh_run E force w :
  CookiePool._refresh_cache E force w = (Ok tt, refreshed E force w).
Proof.
  unfold CookiePool._refresh_cache, refreshed, stale, bind, datetime_now, get.
  cbn.
  destruct (force || _) eqn:H.
  - cbn. unfold reloaded. cbn.
    destruct (_ <=? _)%nat; reflexivity.
  - reflexivity.
Qed.

Ltac wsimpl :=
  cbn [cookies generation_logs _current_index _cookies_cache _cache_time
       clock_reads posts trace set_cookies set_generation_logs
       set_current_index set_cookies_cache set_cache_time set_clock_reads
       set_posts set_trace] in *.

Lemma daily_usage_run E i w :
  Database.get_cookie_daily_usage E i w =
  (Ok (usage_at E w (clock_reads w) i),
   set_trace (trace w ++ [DbGetCookieDailyUsage i])
             (set_clock_reads (S (clock_reads w)) w)).
Proof. reflexivity. Qed.

Lemma positions_S c N m :
  (0 < N)%nat ->
  positions c N (S m) = ((c mod N)%nat :: positions ((c + 1) mod N) N m).
Proof.
  intros HN. unfold positions. cbn [seq map]. rewrite Nat.add_0_r. f_equal.
  rewrite <- seq_shift, map_map. apply map_ext. intros j.
  rewrite Nat.Div0.add_mod_idemp_l. f_equal. lia.
Qed.

Lemma probe_run E : forall r w,
  (_current_index w < List.length (_cookies_cache w))%nat ->
  exists m res w',
    CookiePool.probe E r w = (Ok res, w') /\
    (m <= r)%nat /\
    cookies w' = cookies w /\ generation_logs w' = generation_logs w /\
    _cookies_cache w' = _cookies_cache w /\ _cache_time w' = _cache_time w /\
    posts w' = posts w /\
    clock_reads w' = (clock_reads w + m)%nat /\
    _current_index w' = ((_current_index w + m) mod List.length (_cookies_cache w))%nat /\
    (exists evs, appended w w' evs /\
       map Some (probed evs) =
       cookie_ids_at (_cookies_cache w)
         (positions (_current_index w) (List.length (_cookies_cache w)) m) /\
       evs = map DbGetCookieDailyUsage (probed evs)) /\
    (forall j ck, (j < m)%nat -> (res = None \/ (S j < m)%nat) ->
       nth_error (_cookies_cache w)
         ((_current_index w + j) mod List.length (_cookies_cache w)) = Some ck ->
       DAILY_QUOTA E <= usage_at E w (clock_reads w + j) (Cookie.id ck)) /\
    match res with
    | Some ck =>
        (1 <= m)%nat /\
        nth_error (_cookies_cache w)
          ((_current_index w + (m - 1)) mod List.length (_cookies_cache w)) = Some ck /\
        usage_at E w (clock_reads w + (m - 1)) (Cookie.id ck) < DAILY_QUOTA E
    | None => m = r
    end.
Proof.
  induction r as [|r IH]; intros w Hc.
  - exists 0%nat, None, w. cbn. rewrite Nat.add_0_r, Nat.mod_small by lia.
    repeat split; try lia.
    exists []. unfold appended. rewrite app_nil_r. repeat split.
  - cbn [CookiePool.probe]. unfold bind at 1. cbn [get].
    destruct (nth_error (_cookies_cache w) (_current_index w)) as [ck|] eqn:Hn.
    2:{ apply nth_error_None in Hn. lia. }
    unfold bind at 1. cbn [modify].
    unfold bind at 1. rewrite daily_usage_run.
    set (w1 := set_trace _ _).
    assert (Hu : usage_at E (set_current_index ((_current_index w + 1) mod List.length (_cookies_cache w))%nat w)
              (clock_reads (set_current_index ((_current_index w + 1) mod List.length (_cookies_cache w))%nat w)) (Cookie.id ck)
            = usage_at E w (clock_reads w) (Cookie.id ck)) by reflexivity.
    rewrite Hu.
    destruct (usage_at E w (clock_reads w) (Cookie.id ck) <? DAILY_QUOTA E) eqn:Hq.
    + exists 1%nat, (Some ck), w1. subst w1. unfold ret. wsimpl.
      repeat split; try lia.
      * exists [DbGetCookieDailyUsage (Cookie.id ck)]. repeat split.
        unfold cookie_ids_at. rewrite positions_S by lia. cbn.
        rewrite Nat.mod_small by lia. rewrite Hn. reflexivity.
      * intros j ck' Hj [H|H]; [discriminate|lia].
      * rewrite Nat.add_0_r, Nat.mod_small by lia. exact Hn.
      * rewrite Nat.add_0_r. apply Z.ltb_lt. exact Hq.
    + assert (Hc1 : (_current_index w1 < List.length (_cookies_cache w1))%nat).
      { subst w1. wsimpl. apply Nat.mod_upper_bound. lia. }
      destruct (IH w1 Hc1) as (m & res & w' & Hrun & Hm & H1 & H2 & H3 & H4 & H5 & H6 & H7 & (evs & Ha & Hp & He) & Hfull & Hres).
      exists (S m), res, w'. rewrite Hrun.
      unfold appended in *. subst w1. wsimpl.
      change (usage_at E (set_trace ?t (set_clock_reads ?n (set_current_index ?i w)))) with (usage_at E w) in *.
      repeat split; try assumption; try lia.
      * rewrite H7. rewrite Nat.Div0.add_mod_idemp_l. f_equal. lia.
      * exists (DbGetCookieDailyUsage (Cookie.id ck) :: evs). repeat split.
        -- rewrite Ha. rewrite <- app_assoc. reflexivity.
        -- cbn [probed flat_map app map]. fold (probed evs). rewrite Hp.
           unfold cookie_ids_at. rewrite positions_S by lia. cbn [map].
           rewrite (Nat.mod_small (_current_index w)) by lia.
           rewrite Hn. reflexivity.
        -- cbn [probed flat_map app map]. fold (probed evs). rewrite <- He. reflexivity.
      * intros j ck' Hj Hor Hnth.
        destruct j as [|j].
        -- rewrite Nat.add_0_r, Nat.mod_small in Hnth by lia.
           rewrite Hn in Hnth. injection Hnth as <-.
           rewrite Nat.add_0_r. apply Z.ltb_ge. exact Hq.
        -- replace (clock_reads w + S j)%nat with (S (clock_reads w) + j)%nat by lia.
           apply (Hfull j ck'); [lia | destruct Hor; [left; assumption | right; lia] |].
           rewrite Nat.Div0.add_mod_idemp_l.
           replace (_current_index w + 1 + j)%nat with (_current_index w + S j)%nat by lia.
           exact Hnth.
      * destruct res as [ck'|]; [|lia].
        destruct Hres as (Hm1 & Hnth & Hlt). repeat split; try lia.
        -- rewrite Nat.Div0.add_mod_idemp_l in Hnth.
           replace (_current_index w + (S m - 1))%nat with (_current_index w + 1 + (m - 1))%nat by lia.
           exact Hnth.
        -- replace (clock_reads w + (S m - 1))%nat with (S (clock_reads w) + (m - 1))%nat by lia.
           exact Hlt.
Qed.

Lemma insert_by_perm le x l : Permutation (Database.insert_by le x l) (x :: l).
Proof.
  induction l as [|y l IH]; cbn; [reflexivity|].
  destruct (le x y); [reflexivity|].
  rewrite IH. apply perm_swap.
Qed.

Lemma order_by_perm le l : Permutation (Database.order_by le l) l.
Proof.
  induction l as [|x l IH]; cbn; [constructor|].
  fold (Database.order_by le l). rewrite insert_by_perm. constructor. exact IH.
Qed.

Lemma NoDup_map_filter {A B} (f : A -> B) (p : A -> bool) l :
  NoDup (map f l) -> NoDup (map f (filter p l)).
Proof.
  induction l as [|x l IH]; cbn; intros H; [constructor|].
  inversion H as [|? ? Hx Hl]; subst.
  destruct (p x); cbn; auto.
  constructor; auto.
  intros Hin. apply Hx. apply in_map_iff in Hin as (y & Hy & Hin).
  apply in_map_iff. exists y. split; [assumption|].
  apply filter_In in Hin. tauto.
Qed.

Lemma select_all_active_NoDup table :
  NoDup (map Cookie.id table) ->
  NoDup (map Cookie.id (Database.select_all true table)).
Proof.
  intros H. unfold Database.select_all.
  eapply Permutation_NoDup.
  - apply Permutation_map. symmetry. apply order_by_perm.
  - apply NoDup_map_filter. exact H.
Qed.

Lemma add_mod_inj c N j j' :
  (j < N)%nat -> (j' < N)%nat ->
  ((c + j) mod N = (c + j') mod N)%nat -> j = j'.
Proof.
  intros Hj Hj' H.
  pose proof (Nat.div_mod_eq (c + j) N) as E1.
  pose proof (Nat.div_mod_eq (c + j') N) as E2.
  rewrite H in E1.
  set (q := ((c + j) / N)%nat) in *. set (q' := ((c + j') / N)%nat) in *.
  set (r := ((c + j') mod N)%nat) in *.
  assert (q = q') by nia. subst q. nia.
Qed.

Lemma positions_NoDup c N m : (m <= N)%nat -> NoDup (positions c N m).
Proof.
  intros Hm. unfold positions.
  assert (Hseq : NoDup (seq 0 m)) by apply seq_NoDup.
  assert (Hin : forall j, In j (seq 0 m) -> (j < N)%nat).
  { intros j Hj. apply in_seq in Hj. lia. }
  induction (seq 0 m) as [|j l IH]; cbn; [constructor|].
  inversion Hseq; subst. constructor.
  - intros H. apply in_map_iff in H as (j' & Heq & Hj').
    assert (j' = j).
    { apply (add_mod_inj c N); auto using in_eq, in_cons. }
    subst. contradiction.
  - apply IH; auto using in_cons.
Qed.

Lemma positions_bound c N m p : (0 < N)%nat -> In p (positions c N m) -> (p < N)%nat.
Proof.
  intros HN H. apply in_map_iff in H as (j & <- & _).
  apply Nat.mod_upper_bound. lia.
Qed.

Lemma cookie_ids_at_NoDup L ps ids :
  NoDup (map Cookie.id L) -> NoDup ps ->
  map Some ids = cookie_ids_at L ps -> NoDup ids.
Proof.
  intros HL Hps. revert ids.
  induction Hps as [|p ps Hp Hps IH]; intros ids Hids.
  - destruct ids; [constructor|discriminate].
  - destruct ids as [|i ids]; [constructor|].
    cbn in Hids. injection Hids as Hi Hids.
    constructor; [|apply IH; exact Hids].
    intros Hin. apply Hp.
    apply (in_map Some) in Hin. rewrite Hids in Hin.
    apply in_map_iff in Hin as (p' & Hp' & Hin).
    assert (p' = p); [|subst; assumption].
    destruct (nth_error L p) as [a|] eqn:Ha; [|discriminate].
    destruct (nth_error L p') as [a'|] eqn:Ha'; [|discriminate].
    cbn in Hi, Hp'. injection Hi as Hi. injection Hp' as Hp'.
    assert (H1 : nth_error (map Cookie.id L) p = Some i).
    { rewrite nth_error_map, Ha, Hi. reflexivity. }
    assert (H2 : nth_error (map Cookie.id L) p' = Some i).
    { rewrite nth_error_map, Ha', <- Hp'. reflexivity. }
    rewrite NoDup_nth_error in HL. apply HL.
    + apply nth_error_Some. rewrite H2. discriminate.
    + congruence.
Qed.

Lemma refreshed_frame E force w :
  cookies (refreshed E force w) = cookies w /\
  generation_logs (refreshed E force w) = generation_logs w /\
  posts (refreshed E force w) = posts w /\
  clock_reads (refreshed E force w) = S (clock_reads w).
Proof. unfold refreshed. destruct (force || stale E w); repeat split. Qed.

Lemma refreshed_pool_ok E force w : pool_ok w -> pool_ok (refreshed E force w).
Proof.
  unfold refreshed, pool_ok. intros H.
  destruct (force || stale E w); [|exact H].
  unfold reloaded. wsimpl.
  destruct (Database.select_all true (cookies w)) as [|a l] eqn:Hl; [left; reflexivity|].
  right. destruct (_ <=? _)%nat eqn:Hle.
  - cbn. lia.
  - apply Nat.leb_gt in Hle. exact Hle.
Qed.

Lemma refreshed_forced_pool_ok E w : pool_ok (refreshed E true w).
Proof.
  unfold refreshed, pool_ok. cbn [orb]. unfold reloaded. wsimpl.
  destruct (Database.select_all true (cookies w)) as [|a l] eqn:Hl; [left; reflexivity|].
  right. destruct (_ <=? _)%nat eqn:Hle.
  - cbn. lia.
  - apply Nat.leb_gt in Hle. exact Hle.
Qed.

Lemma refreshed_synced E force w :
  synced w ->
  _cookies_cache (refreshed E force w) = Database.select_all true (cookies w).
Proof.
  unfold refreshed, synced, stale. intros [H|H].
  - rewrite H. rewrite orb_true_r. reflexivity.
  - destruct (force || _); [reflexivity|exact H].
Qed.

Lemma refreshed_steady E force w :
  _cookies_cache w = Database.select_all true (cookies w) ->
  (_current_index w < List.length (_cookies_cache w))%nat ->
  _cookies_cache (refreshed E force w) = _cookies_cache w /\
  _current_index (refreshed E force w) = _current_index w.
Proof.
  intros Hc Hi. unfold refreshed.
  destruct (force || stale E w); [|split; reflexivity].
  unfold reloaded. wsimpl. rewrite <- Hc. split; [reflexivity|].
  destruct (_ <=? _)%nat eqn:Hle; [|reflexivity].
  apply Nat.leb_le in Hle. lia.
Qed.

Lemma get_next_cookie_unfold E w :
  CookiePool.get_next_cookie E w =
  match _cookies_cache (refreshed E false w) with
  | [] => (Ok None, refreshed E false w)
  | _ :: _ => CookiePool.probe E (List.length (_cookies_cache (refreshed E false w)))
                (refreshed E false w)
  end.
Proof.
  unfold CookiePool.get_next_cookie. unfold bind at 1. rewrite refresh_run.
  unfold bind, get. destruct (_cookies_cache (refreshed E false w)); reflexivity.
Qed.

Lemma get_next_cookie_one E w w1 (L : list Cookie.t) (N c : nat) :
  CookiePool._refresh_cache E false w = (Ok tt, w1) ->
  L = _cookies_cache w1 -> N = List.length L -> c = _current_index w1 ->
  pool_ok w -> (1 <= N)%nat ->
  exists m res w' evs,
    CookiePool.get_next_cookie E w = (Ok res, w') /\
    appended w1 w' evs /\ evs = map DbGetCookieDailyUsage (probed evs) /\
    (1 <= m <= N)%nat /\
    map Some (probed evs) = cookie_ids_at L (positions c N m) /\
    NoDup (positions c N m) /\
    (NoDup (map Cookie.id L) -> NoDup (probed evs)) /\
    _current_index w' = ((c + m) mod N)%nat /\
    clock_reads w' = (clock_reads w1 + m)%nat /\
    (forall j ck, (j < m)%nat -> (res = None \/ (S j < m)%nat) ->
       nth_error L ((c + j) mod N) = Some ck ->
       DAILY_QUOTA E <= usage_at E w (clock_reads w1 + j) (Cookie.id ck)) /\
    match res with
    | Some ck =>
        nth_error L ((c + (m - 1)) mod N) = Some ck /\
        usage_at E w (clock_reads w1 + (m - 1)) (Cookie.id ck) < DAILY_QUOTA E
    | None => m = N
    end.
Proof.
  intros Hr HL HN Hc Hok H1.
  rewrite refresh_run in Hr. injection Hr as Hr.
  assert (Hok1 : pool_ok w1) by (rewrite <- Hr; apply refreshed_pool_ok; exact Hok).
  assert (Hlt : (_current_index w1 < List.length (_cookies_cache w1))%nat).
  { destruct Hok1 as [He|Hlt]; [|exact Hlt]. rewrite He in HL. subst L N. cbn in H1. lia. }
  rewrite get_next_cookie_unfold, Hr.
  destruct (_cookies_cache w1) as [|a l] eqn:Hcache.
  { subst L N. cbn in H1. lia. }
  rewrite <- Hcache in *.
  destruct (probe_run E (List.length (_cookies_cache w1)) w1 Hlt)
    as (m & res & w' & Hrun & Hm & Hck & _ & _ & _ & _ & Hcl & Hi & (evs & Ha & Hp & He) & Hfull & Hres).
  assert (Hu : forall t i, usage_at E w1 t i = usage_at E w t i).
  { intros. unfold usage_at. rewrite <- Hr.
    destruct (refreshed_frame E false w) as (-> & _). reflexivity. }
  exists m, res, w', evs. rewrite Hrun. subst L N c.
  assert (Hm1 : (1 <= m)%nat).
  { destruct res as [ck|]; [tauto|lia]. }
  assert (Hnd : NoDup (positions (_current_index w1) (List.length (_cookies_cache w1)) m))
    by (apply positions_NoDup; lia).
  repeat split; try assumption; try lia.
  - intros Hids. eapply cookie_ids_at_NoDup; eauto.
  - intros j ck Hj Hor Hnth. rewrite <- Hu. eapply Hfull; eauto.
  - destruct res as [ck|]; [|assumption].
    rewrite <- Hu. tauto.
Qed.

Lemma get_next_cookie_unlimited E w ck :
  unlimited E w ->
  nth_error (_cookies_cache (refreshed E false w))
            (_current_index (refreshed E false w)) = Some ck ->
  exists w',
    CookiePool.get_next_cookie E w = (Ok (Some ck), w') /\
    cookies w' = cookies w /\
    _cookies_cache w' = _cookies_cache (refreshed E false w) /\
    _current_index w' =
      ((_current_index (refreshed E false w) + 1)
         mod List.length (_cookies_cache (refreshed E false w)))%nat.
Proof.
  intros Hun Hnth. rewrite get_next_cookie_unfold.
  set (w1 := refreshed E false w) in *.
  destruct (_cookies_cache w1) as [|a l] eqn:Hcache.
  { destruct (_current_index w1); discriminate. }
  rewrite <- Hcache in *.
  replace (List.length (_cookies_cache w1)) with (S (List.length l))
    by (rewrite Hcache; reflexivity).
  cbn [CookiePool.probe]. unfold bind at 1. cbn [get]. rewrite Hnth.
  unfold bind at 1. cbn [modify]. unfold bind at 1. rewrite daily_usage_run.
  assert (Hlt : usage_at E w (S (clock_reads w)) (Cookie.id ck) < DAILY_QUOTA E) by apply Hun.
  apply Z.ltb_lt in Hlt.
  assert (Hu : usage_at E
      (set_current_index ((_current_index w1 + 1) mod List.length (_cookies_cache w1))%nat w1)
      (clock_reads (set_current_index ((_current_index w1 + 1) mod List.length (_cookies_cache w1))%nat w1))
      (Cookie.id ck) = usage_at E w (S (clock_reads w)) (Cookie.id ck)).
  { unfold usage_at. wsimpl. subst w1.
    destruct (refreshed_frame E false w) as (-> & _ & _ & ->). reflexivity. }
  rewrite Hu, Hlt. eexists. split; [reflexivity|]. wsimpl.
  repeat split.
  - subst w1. apply refreshed_frame.
  - rewrite Hcache. reflexivity.
Qed.

Lemma select_many_unlimited E (L : list Cookie.t) : forall k w c,
  unlimited E w ->
  Database.select_all true (cookies w) = L ->
  _cookies_cache (refreshed E false w) = L ->
  _current_index (refreshed E false w) = c ->
  (c < List.length L)%nat ->
  exists cs w',
    select_many E k w = (Ok (map Some cs), w') /\
    map Some cs = map (nth_error L) (positions c (List.length L) k).
Proof.
  induction k as [|k IH]; intros w c Hun Hsel Hcache Hidx Hc.
  - exists [], w. split; reflexivity.
  - destruct (nth_error L c) as [ck|] eqn:Hnth.
    2:{ apply nth_error_None in Hnth. lia. }
    destruct (get_next_cookie_unlimited E w ck Hun) as (w1 & Hrun & Hck & Hca & Hix).
    { rewrite Hcache, Hidx. exact Hnth. }
    rewrite Hcache in Hca, Hix. rewrite Hidx in Hix.
    assert (Hc1 : (_current_index w1 < List.length (_cookies_cache w1))%nat).
    { rewrite Hca, Hix. apply Nat.mod_upper_bound. lia. }
    destruct (refreshed_steady E false w1) as (Hs1 & Hs2); [congruence|exact Hc1|].
    destruct (IH w1 ((c + 1) mod List.length L)%nat) as (cs & w' & Hmany & Hcs).
    + intros t i. unfold usage_at. rewrite Hck. apply Hun.
    + congruence.
    + congruence.
    + congruence.
    + apply Nat.mod_upper_bound. lia.
    + exists (ck :: cs), w'. cbn [select_many]. unfold bind at 1. rewrite Hrun.
      unfold bind at 1. rewrite Hmany. split; [reflexivity|].
      rewrite positions_S by lia. cbn [map]. rewrite Nat.mod_small by lia.
      rewrite Hnth, Hcs. reflexivity.
Qed.

Lemma nth_error_positions_NoDup (L : list Cookie.t) ps cs :
  NoDup (map Cookie.id L) -> NoDup ps ->
  map Some cs = map (nth_error L) ps -> NoDup (map Cookie.id cs).
Proof.
  intros HL Hps Hcs. apply (cookie_ids_at_NoDup L ps); auto.
  unfold cookie_ids_at. rewrite <- (map_map (nth_error L) (option_map Cookie.id)).
  rewrite <- Hcs. rewrite !map_map. reflexivity.
Qed.

Lemma get_next_cookie_rounds E w w1 (L : list Cookie.t) (N c k : nat) :
  CookiePool._refresh_cache E false w = (Ok tt, w1) ->
  L = _cookies_cache w1 -> N = List.length L -> c = _current_index w1 ->
  pool_ok w -> (1 <= N)%nat ->
  synced w -> unlimited E w -> NoDup (map Cookie.id (cookies w)) -> (k <= N)%nat ->
  exists cs w',
    select_many E k w = (Ok (map Some cs), w') /\
    map Some cs = map (nth_error L) (positions c N k) /\
    NoDup (map Cookie.id cs).
Proof.
  intros Hr HL HN Hc Hok H1 Hsy Hun Hnd Hk.
  rewrite refresh_run in Hr. injection Hr as Hr.
  assert (Hsel : Database.select_all true (cookies w) = L).
  { rewrite HL, <- Hr. symmetry. apply refreshed_synced. exact Hsy. }
  assert (Hlt : (c < List.length L)%nat).
  { pose proof (refreshed_pool_ok E false w Hok) as [He|Hlt].
    - rewrite Hr in He. rewrite He in HL. subst L N. cbn in H1. lia.
    - rewrite Hr in Hlt. subst. exact Hlt. }
  destruct (select_many_unlimited E L k w c Hun Hsel) as (cs & w' & Hmany & Hcs);
    try (rewrite Hr; congruence); try assumption.
  exists cs, w'. subst N. repeat split; try assumption.
  apply (nth_error_positions_NoDup L (positions c (List.length L) k)); auto.
  - rewrite <- Hsel. apply select_all_active_NoDup. exact Hnd.
  - apply positions_NoDup. exact Hk.
Qed.

Lemma session_post_run E i rq w :
  session_post E i rq w =
  (Ok (backend E (posts w) rq),
   set_posts (S (posts w)) (set_trace (trace w ++ [SessionPost i rq]) w)).
Proof. reflexivity. Qed.

Lemma attempts_run E ck rq : forall r a w,
  exists res w' evs,
    ImageGenerator.attempts E ck rq r a w = (Ok res, w') /\
    appended w w' evs /\
    Forall (network_event ck rq) evs /\
    (List.length (posted evs) <= r)%nat /\
    posts w' = (posts w + List.length (posted evs))%nat /\
    cookies w' = cookies w /\ generation_logs w' = generation_logs w /\
    _current_index w' = _current_index w /\
    _cookies_cache w' = _cookies_cache w /\
    _cache_time w' = _cache_time w /\
    clock_reads w' = clock_reads w /\
    GenerationResult.cookie_id res = Some (Cookie.id ck).
Proof.
  induction r as [|r IH]; intros a w.
  - exists (ImageGenerator.failed "超过最大重试次数" (Some (Cookie.id ck))), w, [].
    cbn. unfold appended. rewrite app_nil_r. repeat split; auto; lia.
  - cbn [ImageGenerator.attempts]. unfold bind at 1. rewrite session_post_run.
    set (w1 := set_posts _ _).
    assert (Hstop :
      exists evs,
        appended w w1 evs /\ Forall (network_event ck rq) evs /\
        (List.length (posted evs) <= S r)%nat /\
        posts w1 = (posts w + List.length (posted evs))%nat /\
        cookies w1 = cookies w /\ generation_logs w1 = generation_logs w /\
        _current_index w1 = _current_index w /\
        _cookies_cache w1 = _cookies_cache w /\
        _cache_time w1 = _cache_time w /\
        clock_reads w1 = clock_reads w).
    { exists [SessionPost (Cookie.id ck) rq].
      subst w1. unfold appended. wsimpl. cbn [posted flat_map app List.length].
      repeat split; auto; try lia.
      constructor; [left; reflexivity|constructor]. }
    assert (Hgo : forall n a',
      exists res w' evs,
        (asyncio_sleep n ;;; ImageGenerator.attempts E ck rq r a') w1 = (Ok res, w') /\
        appended w w' evs /\ Forall (network_event ck rq) evs /\
        (List.length (posted evs) <= S r)%nat /\
        posts w' = (posts w + List.length (posted evs))%nat /\
        cookies w' = cookies w /\ generation_logs w' = generation_logs w /\
        _current_index w' = _current_index w /\
        _cookies_cache w' = _cookies_cache w /\
        _cache_time w' = _cache_time w /\
        clock_reads w' = clock_reads w /\
        GenerationResult.cookie_id res = Some (Cookie.id ck)).
    { intros n a'. unfold bind, asyncio_sleep, emit, modify.
      destruct (IH a' (set_trace (trace w1 ++ [Sleep n]) w1))
        as (res & w' & evs & Hrun & Ha & Hev & Hlen & Hp & H1 & H2 & H3 & H4 & H5 & H6 & H7).
      exists res, w', (SessionPost (Cookie.id ck) rq :: Sleep n :: evs).
      rewrite Hrun. subst w1. unfold appended in *. wsimpl.
      cbn [posted flat_map app List.length]. fold (posted evs).
      repeat split; auto; try lia.
      - rewrite Ha, <- !app_assoc. reflexivity.
      - constructor; [left; reflexivity|].
        constructor; [right; eexists; reflexivity|assumption]. }
    destruct Hstop as (evs1 & Hstop).
    assert (Hret : forall res,
      GenerationResult.cookie_id res = Some (Cookie.id ck) ->
      exists res' w' evs,
        ret res w1 = (Ok res', w') /\
        appended w w' evs /\ Forall (network_event ck rq) evs /\
        (List.length (posted evs) <= S r)%nat /\
        posts w' = (posts w + List.length (posted evs))%nat /\
        cookies w' = cookies w /\ generation_logs w' = generation_logs w /\
        _current_index w' = _current_index w /\
        _cookies_cache w' = _cookies_cache w /\
        _cache_time w' = _cache_time w /\
        clock_reads w' = clock_reads w /\
        GenerationResult.cookie_id res' = Some (Cookie.id ck)).
    { intros res Hid. exists res, w1, evs1. split; [reflexivity|].
      decompose [and] Hstop. repeat split; assumption. }
    destruct (backend E (posts w) rq) as [status text data|e|e].
    + destruct (status =? 200).
      { destruct data as [e| |b64 url|msg]; try (apply Hret; reflexivity).
        destruct (truthy b64); [apply Hret; reflexivity|].
        destruct (truthy url); apply Hret; reflexivity. }
      destruct (status =? 429); [apply Hgo|].
      destruct (status =? 401); [apply Hret; reflexivity|].
      destruct (status =? 400); apply Hret; reflexivity.
    + destruct (a <? MAX_RETRIES E - 1); [apply Hgo|apply Hret; reflexivity].
    + apply Hret; reflexivity.
Qed.

Lemma update_cookie_usage_run E i s w :
  Database.update_cookie_usage E i s w = (Ok tt, usage_updated E i s w).
Proof.
  unfold Database.update_cookie_usage, usage_updated, updated_table.
  unfold bind at 1. cbn [datetime_now]. unfold bind at 1. cbn [emit modify].
  unfold bind at 1. cbn [get]. wsimpl.
  destruct (Database.select_by_id i (cookies w)) as [row|];
    [destruct (negb _)|]; destruct s; reflexivity.
Qed.

Lemma mark_cookie_used_run E i s w :
  CookiePool.mark_cookie_used E i s w = (Ok tt, marked E i s w).
Proof.
  unfold CookiePool.mark_cookie_used, marked.
  unfold bind at 1. rewrite update_cookie_usage_run.
  destruct s; cbn [negb];
    cbv beta iota delta [bind ret get modify emit Database.get_cookie];
    rewrite refresh_run; reflexivity.
Qed.

Lemma marked_frame E i s w :
  appended w (marked E i s w) (mark_events i s) /\
  generation_logs (marked E i s w) = generation_logs w /\
  posts (marked E i s w) = posts w /\
  pool_ok (marked E i s w).
Proof.
  unfold marked. split; [|split; [|split]].
  - unfold appended, mark_events, refreshed, reloaded, usage_updated.
    cbn [orb]. destruct s; wsimpl; rewrite <- !app_assoc; reflexivity.
  - destruct (refreshed_frame E true
      (if s then usage_updated E i s w
       else set_trace (trace (usage_updated E i s w) ++ [DbGetCookie i])
              (usage_updated E i s w))) as (_ & -> & _).
    destruct s; reflexivity.
  - destruct (refreshed_frame E true
      (if s then usage_updated E i s w
       else set_trace (trace (usage_updated E i s w) ++ [DbGetCookie i])
              (usage_updated E i s w))) as (_ & _ & -> & _).
    destruct s; reflexivity.
  - apply refreshed_forced_pool_ok.
Qed.

Lemma get_next_cookie_frame E w :
  pool_ok w ->
  exists res w1 evs,
    CookiePool.get_next_cookie E w = (Ok res, w1) /\
    appended w w1 evs /\ Forall selection_event evs /\
    cookies w1 = cookies w /\ generation_logs w1 = generation_logs w /\
    posts w1 = posts w /\ pool_ok w1.
Proof.
  intros Hok. rewrite get_next_cookie_unfold.
  pose proof (refreshed_pool_ok E false w Hok) as Hok1.
  destruct (refreshed_frame E false w) as (Hc & Hl & Hp & _).
  assert (Hev : exists evs0, appended w (refreshed E false w) evs0 /\
                             Forall selection_event evs0).
  { unfold refreshed, appended. destruct (false || stale E w).
    - exists [DbGetAllCookies true]. split; [reflexivity|].
      constructor; [left; reflexivity|constructor].
    - exists []. wsimpl. rewrite app_nil_r. split; [reflexivity|constructor]. }
  destruct Hev as (evs0 & Ha0 & Hf0).
  set (w1 := refreshed E false w) in *.
  destruct (_cookies_cache w1) as [|a l] eqn:Hcache.
  - exists None, w1, evs0. repeat split; auto.
  - rewrite <- Hcache in *.
    assert (Hlt : (_current_index w1 < List.length (_cookies_cache w1))%nat).
    { destruct Hok1 as [He|Hlt]; [congruence|exact Hlt]. }
    destruct (probe_run E (List.length (_cookies_cache w1)) w1 Hlt)
      as (m & res & w' & Hrun & Hm & H1 & H2 & H3 & H4 & H5 & H6 & H7 & (evs & Ha & Hp' & He) & _).
    exists res, w', (evs0 ++ evs)%list. rewrite Hrun.
    repeat split; try congruence.
    + unfold appended in *. rewrite Ha, Ha0, app_assoc. reflexivity.
    + apply Forall_app. split; [assumption|].
      rewrite He. apply Forall_forall. intros e Hin.
      apply in_map_iff in Hin as (i & <- & _). right. eexists. reflexivity.
    + right. rewrite H3, H7. apply Nat.mod_upper_bound. lia.
Qed.

Lemma generate_invalid E a w :
  valid_size a = false ->
  ImageGenerator.generate E a w =
  (Ok (GenerationResult.mk false None None
         (Some (snd (ImageGenerator._validate_size (width a) (height a)))) None), w).
Proof.
  unfold valid_size, ImageGenerator.generate. intros H.
  destruct (ImageGenerator._validate_size (width a) (height a)) as [v msg].
  cbn in H. subst v. reflexivity.
Qed.

Lemma generate_none E a w w1 :
  valid_size a = true ->
  CookiePool.get_next_cookie E w = (Ok None, w1) ->
  ImageGenerator.generate E a w = (Ok no_cookie, w1).
Proof.
  unfold valid_size, ImageGenerator.generate. intros H Hsel.
  destruct (ImageGenerator._validate_size (width a) (height a)) as [v msg].
  cbn in H. subst v. cbn [negb]. unfold bind at 1. rewrite Hsel. reflexivity.
Qed.

Lemma generate_some E a w w1 ck result w2 :
  valid_size a = true ->
  CookiePool.get_next_cookie E w = (Ok (Some ck), w1) ->
  ImageGenerator.attempts E ck (request_of E ck a)
    (Z.to_nat (MAX_RETRIES E)) 0 w1 = (Ok result, w2) ->
  ImageGenerator.generate E a w =
  (Ok result,
   log_added (log_of a ck result)
     (marked E (Cookie.id ck) (GenerationResult.success result) w2)).
Proof.
  unfold valid_size, ImageGenerator.generate. intros H Hsel Hatt.
  destruct (ImageGenerator._validate_size (width a) (height a)) as [v msg].
  cbn in H. subst v. cbn [negb]. unfold bind at 1. rewrite Hsel.
  unfold bind at 1. unfold ImageGenerator._do_generate.
  fold (request_of E ck a). rewrite Hatt.
  unfold bind at 1. rewrite mark_cookie_used_run.
  reflexivity.
Qed.

Lemma recorded_app l1 l2 : recorded (l1 ++ l2) = (recorded l1 ++ recorded l2)%list.
Proof. apply flat_map_app. Qed.
Lemma posted_app l1 l2 : posted (l1 ++ l2) = (posted l1 ++ posted l2)%list.
Proof. apply flat_map_app. Qed.
Lemma logged_app l1 l2 : logged (l1 ++ l2) = (logged l1 ++ logged l2)%list.
Proof. apply flat_map_app. Qed.
Lemma probed_app l1 l2 : probed (l1 ++ l2) = (probed l1 ++ probed l2)%list.
Proof. apply flat_map_app. Qed.

Lemma selection_events_silent evs :
  Forall selection_event evs ->
  recorded evs = [] /\ posted evs = [] /\ logged evs = [].
Proof.
  induction 1 as [|e evs He _ IH]; [repeat split|].
  destruct IH as (H1 & H2 & H3).
  destruct He as [->|(i & ->)]; cbn; auto.
Qed.

Lemma network_events_silent ck rq evs :
  Forall (network_event ck rq) evs ->
  recorded evs = [] /\ probed evs = [] /\ logged evs = [] /\
  Forall (eq (Cookie.id ck)) (posted evs).
Proof.
  induction 1 as [|e evs He _ IH]; [repeat split; constructor|].
  destruct IH as (H1 & H2 & H3 & H4).
  destruct He as [->|(n & ->)]; cbn; auto.
Qed.

Lemma mark_events_recorded i s :
  recorded (mark_events i s) = [(i, s)] /\ posted (mark_events i s) = [] /\
  logged (mark_events i s) = [].
Proof. destruct s; repeat split. Qed.

Lemma generate_accounts E a w :
  pool_ok w ->
  exists result w' evs,
    ImageGenerator.generate E a w = (Ok result, w') /\
    appended w w' evs /\ pool_ok w' /\
    match obtained E a w with
    | Some ck =>
        recorded evs = [(Cookie.id ck, GenerationResult.success result)] /\
        logged evs = [log_of a ck result] /\
        generation_logs w' = (generation_logs w ++ [log_of a ck result])%list /\
        Forall (eq (Cookie.id ck)) (posted evs) /\
        (List.length (posted evs) <= Z.to_nat (MAX_RETRIES E))%nat
    | None =>
        recorded evs = [] /\ logged evs = [] /\ posted evs = [] /\
        generation_logs w' = generation_logs w /\
        GenerationResult.success result = false
    end.
Proof.
  intros Hok. unfold obtained.
  destruct (valid_size a) eqn:Hv.
  2:{ rewrite (generate_invalid E a w Hv). do 2 eexists. exists [].
      split; [reflexivity|]. unfold appended. rewrite app_nil_r.
      repeat split. exact Hok. }
  destruct (get_next_cookie_frame E w Hok)
    as (sel & w1 & evs1 & Hsel & Ha1 & Hf1 & Hc1 & Hl1 & Hp1 & Hok1).
  rewrite Hsel. cbn [fst].
  destruct (selection_events_silent evs1 Hf1) as (Hr1 & Hq1 & Hg1).
  destruct sel as [ck|].
  2:{ rewrite (generate_none E a w w1 Hv Hsel). exists no_cookie, w1, evs1.
      repeat split; auto. }
  destruct (attempts_run E ck (request_of E ck a) (Z.to_nat (MAX_RETRIES E)) 0 w1)
    as (result & w2 & evs2 & Hatt & Ha2 & Hf2 & Hlen & _ & _ & Hl2 & _).
  destruct (network_events_silent _ _ _ Hf2) as (Hr2 & _ & Hg2 & Hq2).
  rewrite (generate_some E a w w1 ck result w2 Hv Hsel Hatt).
  destruct (marked_frame E (Cookie.id ck) (GenerationResult.success result) w2)
    as (Ha3 & Hl3 & _ & Hok3).
  destruct (mark_events_recorded (Cookie.id ck) (GenerationResult.success result))
    as (Hr3 & Hq3 & Hg3).
  exists result. eexists.
  exists (evs1 ++ evs2 ++ mark_events (Cookie.id ck) (GenerationResult.success result)
          ++ [DbAddGenerationLog (log_of a ck result)])%list.
  split; [reflexivity|].
  unfold log_added, appended in *. wsimpl.
  rewrite !recorded_app, !logged_app, !posted_app.
  rewrite Hr1, Hr2, Hr3, Hg1, Hg2, Hg3, Hq1, Hq3. cbn [app].
  rewrite app_nil_r.
  repeat split; auto.
  - rewrite Ha3, Ha2, Ha1, <- !app_assoc. reflexivity.
  - rewrite Hl3, Hl2, Hl1. reflexivity.
Qed.

Lemma attempts_401 E ck rq r att w text data :
  backend E (posts w) rq = Http 401 text data ->
  ImageGenerator.attempts E ck rq (S r) att w =
  (Ok (auth_rejected ck), post_added (Cookie.id ck) rq w).
Proof.
  intros Hb. cbn [ImageGenerator.attempts]. unfold bind at 1.
  rewrite session_post_run, Hb. reflexivity.
Qed.

Lemma attempts_400 E ck rq r att w text data :
  backend E (posts w) rq = Http 400 text data ->
  ImageGenerator.attempts E ck rq (S r) att w =
  (Ok (bad_request ck text data), post_added (Cookie.id ck) rq w).
Proof.
  intros Hb. cbn [ImageGenerator.attempts]. unfold bind at 1.
  rewrite session_post_run, Hb. reflexivity.
Qed.

Lemma retries_failure E a n last w result w' :
  ImageGenerator.generate E a w = (Ok result, w') ->
  GenerationResult.success result = false ->
  ImageGenerator.retries E a (S n) last w =
  ImageGenerator.retries E a n (GenerationResult.error result) w'.
Proof.
  intros Hg Hs. cbn [ImageGenerator.retries]. unfold bind at 1.
  rewrite Hg, Hs. reflexivity.
Qed.

Lemma generate_failed_once E a w w1 ck result :
  valid_size a = true ->
  CookiePool.get_next_cookie E w = (Ok (Some ck), w1) ->
  ImageGenerator.attempts E ck (request_of E ck a) (Z.to_nat (MAX_RETRIES E)) 0 w1 =
    (Ok result, post_added (Cookie.id ck) (request_of E ck a) w1) ->
  GenerationResult.success result = false ->
  exists w',
    ImageGenerator.generate E a w = (Ok result, w') /\
    appended w1 w'
      (SessionPost (Cookie.id ck) (request_of E ck a)
       :: mark_events (Cookie.id ck) false
       ++ [DbAddGenerationLog (log_of a ck result)]) /\
    generation_logs w' = (generation_logs w1 ++ [log_of a ck result])%list /\
    forall n last,
      ImageGenerator.retries E a (S n) last w =
      ImageGenerator.retries E a n (GenerationResult.error result) w'.
Proof.
  intros Hv Hsel Hatt Hs.
  pose proof (generate_some E a w w1 ck result _ Hv Hsel Hatt) as Hg.
  eexists. split; [exact Hg|].
  destruct (marked_frame E (Cookie.id ck) (GenerationResult.success result)
              (post_added (Cookie.id ck) (request_of E ck a) w1)) as (Ha & Hl & _).
  rewrite Hs in *.
  split; [|split].
  - unfold appended, log_added in *. wsimpl. rewrite Ha. unfold post_added. wsimpl.
    rewrite <- !app_assoc. reflexivity.
  - unfold log_added. wsimpl. rewrite Hl. reflexivity.
  - intros n last. eapply retries_failure; [exact Hg|exact Hs].
Qed.

(** *** Exhausted pools *)

Lemma probe_exhausted E d : forall r w,
  same_day E d -> exhausted E d w ->
  (_current_index w < List.length (_cookies_cache w))%nat ->
  exists w',
    CookiePool.probe E r w = (Ok None, w') /\
    cookies w' = cookies w /\ generation_logs w' = generation_logs w /\
    posts w' = posts w /\ _cookies_cache w' = _cookies_cache w /\
    (_current_index w' < List.length (_cookies_cache w'))%nat.
Proof.
  induction r as [|r IH]; intros w Hd Hex Hlt.
  - exists w. repeat split. exact Hlt.
  - cbn [CookiePool.probe]. unfold bind at 1. cbn [get].
    destruct (nth_error (_cookies_cache w) (_current_index w)) as [ck|] eqn:Hn.
    2:{ apply nth_error_None in Hn. lia. }
    unfold bind at 1. cbn [modify]. unfold bind at 1. rewrite daily_usage_run.
    set (w1 := set_trace _ _).
    assert (Hq : DAILY_QUOTA E <= Database.daily_usage_on d (Cookie.id ck) (cookies w)).
    { apply Hex. eapply nth_error_In. exact Hn. }
    unfold usage_at. rewrite Hd. wsimpl.
    apply Z.ltb_ge in Hq. rewrite Hq.
    destruct (IH w1) as (w' & Hrun & H1 & H2 & H3 & H4 & H5).
    + exact Hd.
    + exact Hex.
    + subst w1. wsimpl. apply Nat.mod_upper_bound. lia.
    + exists w'. rewrite Hrun. repeat split; assumption.
Qed.

Lemma get_next_cookie_exhausted E d w :
  same_day E d -> pool_ok w -> exhausted E d w ->
  _cookies_cache w = Database.select_all true (cookies w) ->
  exists w',
    CookiePool.get_next_cookie E w = (Ok None, w') /\
    cookies w' = cookies w /\ generation_logs w' = generation_logs w /\
    posts w' = posts w /\ _cookies_cache w' = _cookies_cache w /\
    pool_ok w'.
Proof.
  intros Hd Hok Hex Hsy. rewrite get_next_cookie_unfold.
  pose proof (refreshed_pool_ok E false w Hok) as Hok1.
  destruct (refreshed_frame E false w) as (Hc & Hl & Hp & _).
  assert (Hca : _cookies_cache (refreshed E false w) = _cookies_cache w).
  { rewrite refreshed_synced by (right; exact Hsy). symmetry. exact Hsy. }
  set (w1 := refreshed E false w) in *.
  destruct (_cookies_cache w1) as [|a l] eqn:Hcache.
  - exists w1. repeat split; auto. congruence.
  - rewrite <- Hcache in *.
    destruct (probe_exhausted E d (List.length (_cookies_cache w1)) w1) as (w' & Hrun & H1 & H2 & H3 & H4 & H5).
    + exact Hd.
    + intros ck Hin. rewrite Hca in Hin. rewrite Hc. apply Hex. exact Hin.
    + destruct Hok1 as [He|Hlt]; [congruence|exact Hlt].
    + exists w'. rewrite Hrun. repeat split; try congruence. right. exact H5.
Qed.

Lemma position_reached c N p :
  (c < N)%nat -> (p < N)%nat ->
  exists j, (j < N)%nat /\ ((c + j) mod N)%nat = p.
Proof.
  intros Hc Hp. exists ((p + N - c) mod N)%nat. split.
  - apply Nat.mod_upper_bound. lia.
  - rewrite Nat.Div0.add_mod_idemp_r.
    replace (c + (p + N - c))%nat with (p + 1 * N)%nat by lia.
    rewrite Nat.Div0.mod_add. apply Nat.mod_small. exact Hp.
Qed.

Lemma none_means_exhausted E d w w1 :
  same_day E d -> pool_ok w -> synced w ->
  CookiePool.get_next_cookie E w = (Ok None, w1) ->
  cookies w1 = cookies w /\ generation_logs w1 = generation_logs w /\
  posts w1 = posts w /\ pool_ok w1 /\ exhausted E d w1 /\
  _cookies_cache w1 = Database.select_all true (cookies w1).
Proof.
  intros Hd Hok Hsy Hsel.
  destruct (get_next_cookie_frame E w Hok)
    as (sel & w1' & evs1 & Hsel' & _ & _ & Hc1 & Hl1 & Hp1 & Hok1).
  rewrite Hsel in Hsel'. injection Hsel' as <- <-.
  repeat split; auto.
  - (* exhausted *)
    rewrite get_next_cookie_unfold in Hsel.
    pose proof (refreshed_pool_ok E false w Hok) as Hokr.
    set (wr := refreshed E false w) in *.
    destruct (_cookies_cache wr) as [|a l] eqn:Hcache.
    { injection Hsel as <-. intros ck Hin. rewrite Hcache in Hin. destruct Hin. }
    rewrite <- Hcache in *.
    assert (Hlt : (_current_index wr < List.length (_cookies_cache wr))%nat).
    { destruct Hokr as [He|Hlt]; [congruence|exact Hlt]. }
    destruct (probe_run E (List.length (_cookies_cache wr)) wr Hlt)
      as (m & res & w' & Hrun & Hm & H1 & H2 & H3 & H4 & H5 & H6 & H7 & _ & Hfull & Hres).
    rewrite Hsel in Hrun. injection Hrun as <- <-. subst m.
    intros ck Hin. rewrite H3 in Hin.
    apply In_nth_error in Hin as (p & Hp).
    assert (Hpl : (p < List.length (_cookies_cache wr))%nat).
    { apply nth_error_Some. rewrite Hp. discriminate. }
    destruct (position_reached _ _ p Hlt Hpl) as (j & Hj & Hjp).
    specialize (Hfull j ck Hj (or_introl eq_refl)).
    rewrite Hjp in Hfull. specialize (Hfull Hp).
    unfold usage_at in Hfull. rewrite Hd in Hfull. rewrite H1. exact Hfull.
  - (* steady *)
    rewrite get_next_cookie_unfold in Hsel.
    pose proof (refreshed_synced E false w Hsy) as Hca.
    pose proof (refreshed_pool_ok E false w Hok) as Hokr.
    set (wr := refreshed E false w) in *.
    destruct (_cookies_cache wr) as [|a l] eqn:Hcache.
    { injection Hsel as <-. rewrite Hcache, Hc1. exact Hca. }
    rewrite <- Hcache in *.
    assert (Hlt : (_current_index wr < List.length (_cookies_cache wr))%nat).
    { destruct Hokr as [He|Hlt]; [congruence|exact Hlt]. }
    destruct (probe_run E (List.length (_cookies_cache wr)) wr Hlt)
      as (m & res & w' & Hrun & Hm & H1 & H2 & H3 & _).
    rewrite Hsel in Hrun. injection Hrun as <- <-.
    rewrite H3, Hc1. exact Hca.
Qed.

Lemma retries_exhausted E d a : forall n w last,
  valid_size a = true ->
  same_day E d -> pool_ok w -> exhausted E d w ->
  _cookies_cache w = Database.select_all true (cookies w) ->
  exists w',
    ImageGenerator.retries E a n last w =
      (Ok (all_failed (match n with
                       | O => last
                       | S _ => GenerationResult.error no_cookie
                       end)), w') /\
    cookies w' = cookies w /\ generation_logs w' = generation_logs w /\
    posts w' = posts w.
Proof.
  induction n as [|n IH]; intros w last Hv Hd Hok Hex Hsy.
  - exists w. repeat split.
  - destruct (get_next_cookie_exhausted E d w Hd Hok Hex Hsy)
      as (w1 & Hsel & Hc & Hl & Hp & Hca & Hok1).
    rewrite (retries_failure E a n last w no_cookie w1);
      [|apply generate_none; assumption|reflexivity].
    destruct (IH w1 (GenerationResult.error no_cookie)) as (w' & Hrun & Hc' & Hl' & Hp'); auto.
    + intros ck Hin. rewrite Hc. apply Hex. rewrite <- Hca. exact Hin.
    + congruence.
    + exists w'. rewrite Hrun. split.
      * destruct n; reflexivity.
      * repeat split; congruence.
Qed.

(** *** The daily window *)

Lemma date_is_false (d : option Date) (today : Date) :
  d <> Some today -> Database.date_is d today = false.
Proof.
  destruct d as [d|]; cbn; [|reflexivity].
  intros H. apply Z.eqb_neq. congruence.
Qed.

Lemma select_by_id_update i f table :
  (forall c, Cookie.id (f c) = Cookie.id c) ->
  Database.select_by_id i (Database.update_where_id i f table) =
  option_map f (Database.select_by_id i table).
Proof.
  intros Hf. unfold Database.select_by_id, Database.update_where_id.
  induction table as [|c table IH]; [reflexivity|].
  cbn [map find]. destruct (Cookie.id c =? i) eqn:Hc.
  - rewrite Hf, Hc. reflexivity.
  - rewrite Hc. exact IH.
Qed.

Section Renaming.
Variable f : Z -> Z.
Variable g : string -> string.
Hypothesis f_inj : forall x y, f x = f y -> x = y.

Lemma sim_bind {A B} (rA : A -> A) (rB : B -> B) m' m (k' k : A -> M B) :
  sim f g rA m' m -> (forall a, sim f g rB (k' (rA a)) (k a)) ->
  sim f g rB (bind m' k') (bind m k).
Proof.
  intros Hm Hk w. unfold bind. rewrite Hm. unfold renamed_outcome at 1.
  destruct (m w) as [[a|e] w1]; cbn [fst snd].
  - apply Hk.
  - reflexivity.
Qed.

Lemma sim_ret {A} (rA : A -> A) a' a : a' = rA a -> sim f g rA (ret a') (ret a).
Proof. intros -> w. reflexivity. Qed.

Ltac sim_done := apply sim_ret; reflexivity.

Lemma sim_get : sim f g (rename_world f g) get get.
Proof. intros w. reflexivity. Qed.

Lemma sim_now E : sim f g (fun t => t) (datetime_now E) (datetime_now E).
Proof. intros w. reflexivity. Qed.

Lemma sim_emit e : sim f g (fun u => u) (emit (rename_event f e)) (emit e).
Proof.
  intros w. unfold emit, modify, renamed_outcome, rename_world. cbn.
  rewrite map_app. reflexivity.
Qed.

Lemma sim_session_post E i rq :
  sim f g (fun r => r) (session_post E (f i) rq) (session_post E i rq).
Proof.
  intros w. unfold session_post, bind, emit, modify, renamed_outcome, rename_world. cbn.
  rewrite map_app. reflexivity.
Qed.

Lemma insert_by_rename le x l :
  (forall a b, le (rename_cookie f g a) (rename_cookie f g b) = le a b) ->
  Database.insert_by le (rename_cookie f g x) (map (rename_cookie f g) l) = map (rename_cookie f g) (Database.insert_by le x l).
Proof.
  intros Hle. induction l as [|y l IH]; [reflexivity|].
  cbn. rewrite Hle. destruct (le x y); cbn; [reflexivity|].
  rewrite IH. reflexivity.
Qed.

Lemma select_all_rename table :
  Database.select_all true (map (rename_cookie f g) table) = map (rename_cookie f g) (Database.select_all true table).
Proof.
  unfold Database.select_all, Database.order_by.
  induction table as [|c table IH]; [reflexivity|].
  cbn [map filter]. change (Cookie.is_active (rename_cookie f g c)) with (Cookie.is_active c).
  destruct (Cookie.is_active c); [|exact IH].
  cbn [fold_right map]. rewrite IH. apply insert_by_rename.
  reflexivity.
Qed.

Lemma select_by_id_rename i table :
  Database.select_by_id (f i) (map (rename_cookie f g) table) =
  option_map (rename_cookie f g) (Database.select_by_id i table).
Proof.
  unfold Database.select_by_id. induction table as [|c table IH]; [reflexivity|].
  cbn [map find]. change (Cookie.id (rename_cookie f g c)) with (f (Cookie.id c)).
  destruct (Cookie.id c =? i) eqn:Hc.
  - apply Z.eqb_eq in Hc. subst i. rewrite Z.eqb_refl. reflexivity.
  - assert (Hf : (f (Cookie.id c) =? f i) = false).
    { apply Z.eqb_neq. intros H. apply f_inj in H. apply Z.eqb_neq in Hc. contradiction. }
    rewrite Hf. exact IH.
Qed.

Lemma update_where_id_rename i h table :
  (forall c, h (rename_cookie f g c) = (rename_cookie f g) (h c)) ->
  Database.update_where_id (f i) h (map (rename_cookie f g) table) =
  map (rename_cookie f g) (Database.update_where_id i h table).
Proof.
  intros Hh. unfold Database.update_where_id. rewrite !map_map.
  apply map_ext. intros c. change (Cookie.id (rename_cookie f g c)) with (f (Cookie.id c)).
  destruct (Cookie.id c =? i) eqn:Hc.
  - apply Z.eqb_eq in Hc. subst i. rewrite Z.eqb_refl. apply Hh.
  - assert (Hf : (f (Cookie.id c) =? f i) = false).
    { apply Z.eqb_neq. intros H. apply f_inj in H. apply Z.eqb_neq in Hc. contradiction. }
    rewrite Hf. reflexivity.
Qed.

Lemma daily_usage_on_rename today i table :
  Database.daily_usage_on today (f i) (map (rename_cookie f g) table) =
  Database.daily_usage_on today i table.
Proof.
  unfold Database.daily_usage_on. rewrite select_by_id_rename.
  destruct (Database.select_by_id i table); reflexivity.
Qed.

Lemma updated_table_rename today i s table :
  updated_table today (f i) s (map (rename_cookie f g) table) =
  map (rename_cookie f g) (updated_table today i s table).
Proof.
  unfold updated_table. rewrite select_by_id_rename.
  destruct (Database.select_by_id i table) as [row|]; cbn [option_map].
  - change (Cookie.daily_date (rename_cookie f g row)) with (Cookie.daily_date row).
    destruct (negb _); destruct s;
      rewrite ?update_where_id_rename by reflexivity; reflexivity.
  - destruct s; rewrite update_where_id_rename by reflexivity; reflexivity.
Qed.

Lemma rename_reloaded E w : reloaded E (rename_world f g w) = (rename_world f g) (reloaded E w).
Proof.
  unfold reloaded, rename_world. wsimpl.
  rewrite select_all_rename, length_map, map_app. reflexivity.
Qed.

Lemma rename_refreshed E force w :
  refreshed E force (rename_world f g w) = (rename_world f g) (refreshed E force w).
Proof.
  unfold refreshed. change (stale E (rename_world f g w)) with (stale E w).
  destruct (force || stale E w); [apply rename_reloaded|reflexivity].
Qed.

Lemma sim_refresh E force :
  sim f g (fun u => u) (CookiePool._refresh_cache E force)
      (CookiePool._refresh_cache E force).
Proof.
  intros w. rewrite !refresh_run. unfold renamed_outcome. cbn [fst snd].
  rewrite rename_refreshed. reflexivity.
Qed.

Lemma sim_daily_usage E i :
  sim f g (fun n => n) (Database.get_cookie_daily_usage E (f i))
      (Database.get_cookie_daily_usage E i).
Proof.
  intros w. rewrite !daily_usage_run. unfold renamed_outcome, usage_at, rename_world. wsimpl.
  cbn [fst snd]. wsimpl. rewrite daily_usage_on_rename, map_app. reflexivity.
Qed.

Lemma sim_mark E i s :
  sim f g (fun u => u) (CookiePool.mark_cookie_used E (f i) s)
      (CookiePool.mark_cookie_used E i s).
Proof.
  intros w. rewrite !mark_cookie_used_run. unfold renamed_outcome. cbn [fst snd].
  unfold marked. rewrite <- rename_refreshed. do 2 f_equal.
  unfold usage_updated, rename_world. wsimpl.
  rewrite updated_table_rename.
  destruct s; wsimpl; rewrite !map_app; reflexivity.
Qed.

Lemma sim_add_log l :
  sim f g (fun u => u) (Database.add_generation_log (rename_log f l))
      (Database.add_generation_log l).
Proof.
  intros w. unfold Database.add_generation_log, bind, emit, modify, renamed_outcome, rename_world.
  cbn. rewrite !map_app. reflexivity.
Qed.

Lemma sim_probe E : forall r,
  sim f g (option_map (rename_cookie f g)) (CookiePool.probe E r) (CookiePool.probe E r).
Proof.
  induction r as [|r IH]; [sim_done|].
  cbn [CookiePool.probe].
  apply (sim_bind (rename_world f g)); [apply sim_get|]. intros w0.
  unfold rename_world at 1 2. wsimpl.
  rewrite nth_error_map.
  destruct (nth_error (_cookies_cache w0) (_current_index w0)) as [ck|];
    cbn [option_map]; [|intros w; reflexivity].
  apply (sim_bind (fun u => u)).
  { intros w. unfold modify, renamed_outcome, rename_world. cbn. rewrite length_map. reflexivity. }
  intros _.
  apply (sim_bind (fun n => n)); [apply sim_daily_usage|]. intros n.
  destruct (n <? DAILY_QUOTA E); [sim_done|apply IH].
Qed.

Lemma sim_get_next_cookie E :
  sim f g (option_map (rename_cookie f g)) (CookiePool.get_next_cookie E) (CookiePool.get_next_cookie E).
Proof.
  unfold CookiePool.get_next_cookie.
  apply (sim_bind (fun u => u)); [apply sim_refresh|]. intros _.
  apply (sim_bind (rename_world f g)); [apply sim_get|]. intros w0.
  unfold rename_world at 1 2. wsimpl. rewrite length_map.
  destruct (_cookies_cache w0); cbn [map];
    [sim_done|apply sim_probe].
Qed.

Lemma sim_attempts E ck rq : forall r a,
  sim f g (rename_result f) (ImageGenerator.attempts E (rename_cookie f g ck) rq r a)
      (ImageGenerator.attempts E ck rq r a).
Proof.
  induction r as [|r IH]; intros a.
  - cbn [ImageGenerator.attempts]. sim_done.
  - cbn [ImageGenerator.attempts].
    apply (sim_bind (fun x => x)); [apply sim_session_post|]. intros resp.
    destruct resp as [status text data|e|e].
    + destruct (status =? 200).
      { destruct data as [e| |b64 url|msg]; try sim_done.
        destruct (truthy b64); [sim_done|].
        destruct (truthy url); sim_done. }
      destruct (status =? 429).
      { apply (sim_bind (fun u => u)); [apply (sim_emit (Sleep _))|]. intros _. apply IH. }
      destruct (status =? 401); [sim_done|].
      destruct (status =? 400); sim_done.
    + destruct (a <? MAX_RETRIES E - 1); [|sim_done].
      apply (sim_bind (fun u => u)); [apply (sim_emit (Sleep _))|]. intros _. apply IH.
    + sim_done.
Qed.

Lemma sim_generate E a :
  sim f g (rename_result f) (ImageGenerator.generate E a) (ImageGenerator.generate E a).
Proof.
  unfold ImageGenerator.generate.
  destruct (ImageGenerator._validate_size (width a) (height a)) as [valid msg].
  destruct (negb valid); [sim_done|].
  apply (sim_bind (option_map (rename_cookie f g))); [apply sim_get_next_cookie|].
  intros [ck|]; cbn [option_map]; [|sim_done].
  apply (sim_bind (rename_result f)).
  { unfold ImageGenerator._do_generate.
    change (ImageGenerator._request E (rename_cookie f g ck)) with (ImageGenerator._request E ck).
    apply sim_attempts. }
  intros result.
  apply (sim_bind (fun u => u)); [apply sim_mark|]. intros _.
  apply (sim_bind (fun u => u)).
  { apply (sim_add_log (GenerationLog.mk _ _ _ (Some (Cookie.id ck)) _ _ _ _)). }
  intros _. sim_done.
Qed.

Lemma sim_retries E a : forall n last,
  sim f g (rename_result f) (ImageGenerator.retries E a n last)
      (ImageGenerator.retries E a n last).
Proof.
  induction n as [|n IH]; intros last; [sim_done|].
  cbn [ImageGenerator.retries].
  apply (sim_bind (rename_result f)); [apply sim_generate|]. intros result.
  change (GenerationResult.success (rename_result f result))
    with (GenerationResult.success result).
  destruct (GenerationResult.success result); [sim_done|apply IH].
Qed.

Lemma sim_generate_image E request :
  sim f g (fun r => r) (Router.generate_image E request)
      (Router.generate_image E request).
Proof.
  unfold Router.generate_image.
  apply (sim_bind (rename_result f)); [apply sim_retries|]. intros result.
  sim_done.
Qed.

End Renaming.

(** ** The claims of the specification *)

(** *** The scheduler *)

(** C1.  Let [w1] be the world after the refresh that opens
    [get_next_cookie], [L] its cache of [N >= 1] credentials and [c] its
    cursor.  One call makes [m] probes with [1 <= m <= N], at the cache
    positions [c], [c + 1], ... taken modulo [N], which are pairwise distinct
    (and so are the probed credentials when ids are unique); every probe but
    the last found the usage at or above the quota; the call returns the
    credential of the last probe when its usage is below the quota, and [None]
    only after [N] probes that all found no capacity; the cursor ends [m]
    places further, modulo [N].  With a quota that is never reached, a store
    nobody else writes and a cache in step with it, [k <= N] calls in a row
    return the credentials at [k] consecutive positions, no credential
    twice. *)

Theorem get_next_cookie_round_robin (E : Env) (w w1 : World)
        (L : list Cookie.t) (N c : nat)
        (Hrefresh : CookiePool._refresh_cache E false w = (Ok tt, w1))
        (HL : L = _cookies_cache w1) (HN : N = List.length L)
        (Hc : c = _current_index w1)
        (Hok : pool_ok w) (Hsize : (1 <= N)%nat) :
  (exists m res w' evs,
     CookiePool.get_next_cookie E w = (Ok res, w') /\
     appended w1 w' evs /\ evs = map DbGetCookieDailyUsage (probed evs) /\
     (1 <= m <= N)%nat /\
     map Some (probed evs) = cookie_ids_at L (positions c N m) /\
     NoDup (positions c N m) /\
     (NoDup (map Cookie.id L) -> NoDup (probed evs)) /\
     _current_index w' = ((c + m) mod N)%nat /\
     clock_reads w' = (clock_reads w1 + m)%nat /\
     (forall j ck, (j < m)%nat -> (res = None \/ (S j < m)%nat) ->
        nth_error L ((c + j) mod N) = Some ck ->
        DAILY_QUOTA E <= usage_at E w (clock_reads w1 + j) (Cookie.id ck)) /\
     match res with
     | Some ck =>
         nth_error L ((c + (m - 1)) mod N) = Some ck /\
         usage_at E w (clock_reads w1 + (m - 1)) (Cookie.id ck) < DAILY_QUOTA E
     | None => m = N
     end) /\
  (forall k, (k <= N)%nat -> synced w -> unlimited E w ->
     NoDup (map Cookie.id (cookies w)) ->
     exists cs w',
       select_many E k w = (Ok (map Some cs), w') /\
       map Some cs = map (nth_error L) (positions c N k) /\
       NoDup (map Cookie.id cs)).
Proof.
  split.
  - eapply get_next_cookie_one; eassumption.
  - intros k Hk Hsy Hun Hnd. eapply get_next_cookie_rounds; eassumption.
Qed.


Lemma nobody_spent tick i : usage_at env_ok (started [alice; bob; carol]) tick i < 100.
Proof.
  unfold usage_at, Database.daily_usage_on, Database.select_by_id.
  cbn -[Z.eqb].
  repeat (destruct (_ =? i); cbn -[Z.eqb]; [lia|]). lia.
Defined.


Lemma get_next_cookie_round_robin_witness :
  pool_ok (started [alice; bob; carol]) /\
  synced (started [alice; bob; carol]) /\
  unlimited env_ok (started [alice; bob; carol]) /\
  exists cs w',
    select_many env_ok 3 (started [alice; bob; carol]) = (Ok (map Some cs), w') /\
    NoDup (map Cookie.id cs).
Proof.
  assert (Hok : pool_ok (started [alice; bob; carol])) by (left; reflexivity).
  assert (Hsy : synced (started [alice; bob; carol])) by (left; reflexivity).
  assert (Hun : unlimited env_ok (started [alice; bob; carol])) by exact nobody_spent.
  repeat split; try assumption.
  destruct (get_next_cookie_round_robin env_ok (started [alice; bob; carol])
              (refreshed env_ok false (started [alice; bob; carol]))
              [alice; bob; carol] 3 0 eq_refl eq_refl eq_refl eq_refl Hok)
    as (_ & Hrounds); [lia|].
  destruct (Hrounds 3%nat) as (cs & w' & Hrun & _ & Hnd); try assumption; [lia| |].
  - cbn. repeat constructor; cbn; intuition discriminate.
  - exists cs, w'. split; assumption.
Defined.


(** A credential that has used up today is passed over, and the next one,
    whose count belongs to yesterday, is returned. *)
Example spent_credential_is_skipped :
  let r := CookiePool.get_next_cookie env_ok (started [alice_spent; bob_old; carol_old]) in
  fst r = Ok (Some bob_old) /\ probed (trace (snd r)) = [1; 2] /\
  _current_index (snd r) = 2%nat.
Proof. vm_compute. repeat split. Qed.


(** C2.  A credential returned by [get_next_cookie] had, at the clock reading
    of its probe, a usage below the quota; so a credential whose usage is at
    or above the quota at every clock reading of the call is not the one
    returned, wherever the cursor stands.  A usage whose stored [daily_date]
    is not the current day reads as 0. *)
Theorem get_next_cookie_respects_quota (E : Env) (w w' : World) (ck : Cookie.t)
        (Hok : pool_ok w)
        (Hsel : CookiePool.get_next_cookie E w = (Ok (Some ck), w')) :
  usage_at E w (clock_reads w' - 1) (Cookie.id ck) < DAILY_QUOTA E /\
  (forall i,
     (forall tick, (clock_reads w < tick < clock_reads w')%nat ->
                   DAILY_QUOTA E <= usage_at E w tick i) ->
     Cookie.id ck <> i) /\
  (forall i row today,
     Database.select_by_id i (cookies w) = Some row ->
     Cookie.daily_date row <> Some today ->
     Database.daily_usage_on today i (cookies w) = 0).
Proof.
  assert (Hne : _cookies_cache (refreshed E false w) <> []).
  { intros He. rewrite get_next_cookie_unfold, He in Hsel. discriminate. }
  destruct (get_next_cookie_one E w (refreshed E false w) _ _ _
              (refresh_run E false w) eq_refl eq_refl eq_refl Hok)
    as (m & res & w2 & evs & Hrun & _ & _ & Hm & _ & _ & _ & _ & Hcl & _ & Hres).
  { destruct (_cookies_cache (refreshed E false w)); [congruence|cbn; lia]. }
  rewrite Hsel in Hrun. injection Hrun as <- <-.
  destruct Hres as (_ & Hlt).
  destruct (refreshed_frame E false w) as (_ & _ & _ & Hcr).
  assert (Htick : (clock_reads w' - 1 = clock_reads (refreshed E false w) + (m - 1))%nat) by lia.
  rewrite <- Htick in Hlt.
  split; [exact Hlt|split].
  - intros i Hfull Heq. subst i.
    specialize (Hfull (clock_reads w' - 1)%nat). lia.
  - intros i row today Hrow Hstale. unfold Database.daily_usage_on.
    rewrite Hrow, (date_is_false _ _ Hstale). reflexivity.
Qed.


Lemma get_next_cookie_respects_quota_witness :
  pool_ok (started [alice_spent; bob_old; carol_old]) /\
  CookiePool.get_next_cookie env_ok (started [alice_spent; bob_old; carol_old]) =
    (Ok (Some bob_old), after_skip) /\
  Cookie.id bob_old <> Cookie.id alice_spent.
Proof.
  assert (Hok : pool_ok (started [alice_spent; bob_old; carol_old]))
    by (left; reflexivity).
  assert (Hsel : CookiePool.get_next_cookie env_ok
                   (started [alice_spent; bob_old; carol_old]) =
                 (Ok (Some bob_old), after_skip)) by reflexivity.
  split; [exact Hok|split; [exact Hsel|]].
  destruct (get_next_cookie_respects_quota env_ok _ _ _ Hok Hsel)
    as (_ & Hnever & _).
  apply Hnever. intros tick _. vm_compute. discriminate.
Defined.


(** *** The orchestrator *)

(** How a request ends: with the success of one of its iterations, or with
    the failure that wraps the last error. *)
Lemma retries_outcome E a : forall n last w result w',
  ImageGenerator.retries E a n last w = (Ok result, w') ->
  GenerationResult.success result = true \/
  exists e, result = all_failed e /\ (n = O -> e = last).
Proof.
  induction n as [|n IH]; intros last w result w' Hrun.
  - cbn in Hrun. injection Hrun as <- _. right. exists last. split; reflexivity.
  - cbn [ImageGenerator.retries] in Hrun. unfold bind at 1 in Hrun.
    destruct (ImageGenerator.generate E a w) as [[r1|ex] w1]; [|discriminate].
    destruct (GenerationResult.success r1) eqn:Hs.
    + injection Hrun as <- _. left. exact Hs.
    + destruct (IH _ _ _ _ Hrun) as [Hok|(e & He & _)]; [left; exact Hok|].
      right. exists e. split; [exact He|discriminate].
Qed.

(** C3, as the code has it.  On a 400 the retry loop of [_do_generate]
    returns at once, at whatever iteration it is, after that single post;
    [generate] then records one failure on the credential, writes one log row
    and returns the error.  [generate_with_retry] treats this failure as any
    other: it goes on with its next iteration, from the world [generate]
    left, and the request ends with the success of a later iteration or with
    the failure that wraps the last error, which is the 400 message itself
    when no iteration was left. *)
Theorem bad_request_ends_the_attempt (E : Env) (a : GenerateArgs)
        (w w1 : World) (ck : Cookie.t) (text : string) (data : Json)
        (Hvalid : valid_size a = true)
        (Hsel : CookiePool.get_next_cookie E w = (Ok (Some ck), w1))
        (Hretries : 0 < MAX_RETRIES E)
        (H400 : backend E (posts w1) (request_of E ck a) = Http 400 text data) :
  (forall remaining attempt w0,
     backend E (posts w0) (request_of E ck a) = Http 400 text data ->
     ImageGenerator.attempts E ck (request_of E ck a) (S remaining) attempt w0 =
     (Ok (bad_request ck text data),
      post_added (Cookie.id ck) (request_of E ck a) w0)) /\
  exists w',
    ImageGenerator.generate E a w = (Ok (bad_request ck text data), w') /\
    appended w1 w'
      (SessionPost (Cookie.id ck) (request_of E ck a)
       :: mark_events (Cookie.id ck) false
       ++ [DbAddGenerationLog (log_of a ck (bad_request ck text data))]) /\
    generation_logs w' =
      (generation_logs w1 ++ [log_of a ck (bad_request ck text data)])%list /\
    (forall n last,
       ImageGenerator.retries E a (S n) last w =
       ImageGenerator.retries E a n (Some (bad_request_message text data)) w') /\
    (forall n last result w2,
       ImageGenerator.retries E a (S n) last w = (Ok result, w2) ->
       GenerationResult.success result = true \/
       exists e, result = all_failed e /\
                 (n = O -> e = Some (bad_request_message text data))).
Proof.
  split.
  - intros r att w0 Hb. eapply attempts_400. exact Hb.
  - destruct (generate_failed_once E a w w1 ck (bad_request ck text data))
      as (w' & Hg & Ha & Hl & Hnext); try assumption; [|reflexivity|].
    { destruct (Z.to_nat (MAX_RETRIES E)) as [|r] eqn:Hr; [lia|].
      eapply attempts_400. exact H400. }
    exists w'. split; [exact Hg|]. split; [exact Ha|]. split; [exact Hl|].
    split; [exact Hnext|].
    intros n last result w2 Hrun. rewrite Hnext in Hrun.
    apply (retries_outcome E a n _ w' result w2 Hrun).
Qed.


Lemma bad_request_ends_the_attempt_witness :
  valid_size a_cat = true /\ 0 < MAX_RETRIES env_bad_request /\
  exists w',
    ImageGenerator.generate env_bad_request a_cat (started [alice; bob]) =
    (Ok (bad_request alice "bad request" (JsonError (Some "invalid prompt"))), w').
Proof.
  assert (Hv : valid_size a_cat = true) by reflexivity.
  assert (Hr : 0 < MAX_RETRIES env_bad_request) by (cbn; lia).
  repeat split; try assumption.
  destruct (bad_request_ends_the_attempt env_bad_request a_cat
              (started [alice; bob])
              (snd (CookiePool.get_next_cookie env_bad_request (started [alice; bob])))
              alice "bad request" (JsonError (Some "invalid prompt"))
              Hv eq_refl Hr eq_refl) as (_ & w' & Hg & _).
  exists w'. exact Hg.
Defined.


(** A 400 on the first credential, an image on the second: the request
    succeeds. *)
Example bad_request_then_served :
  fst (ImageGenerator.generate_with_retry env_rejected_once a_cat 3
         (started [alice; bob])) =
    Ok (GenerationResult.mk true None (Some "iVBORw0KGgo=") None (Some 2)) /\
  posted (trace (snd (ImageGenerator.generate_with_retry env_rejected_once a_cat 3
                        (started [alice; bob])))) = [1; 2].
Proof. vm_compute. repeat split. Qed.

(** C3 as stated fails: with two credentials and a backend that answers 400,
    one request posts three times, to the first credential, the second one and
    the first one again. *)
Lemma bad_request_fails_over :
  backend env_bad_request 0 (request_of env_bad_request alice a_cat) =
    Http 400 "bad request" (JsonError (Some "invalid prompt")) /\
  posted (trace (snd (ImageGenerator.generate_with_retry env_bad_request a_cat 3
                        (started [alice; bob])))) = [1; 2; 1] /\
  recorded (trace (snd (ImageGenerator.generate_with_retry env_bad_request a_cat 3
                          (started [alice; bob])))) =
    [(1, false); (2, false); (1, false)].
Proof. vm_compute. repeat split. Qed.


(** C4, as the code has it.  When the selection returns [None], [generate]
    returns the no-credential error in the world the selection left: no post,
    no record, no log row.  [generate_with_retry] goes on with its next
    iteration, which selects again.  When the day does not change, nobody else
    writes the store and the cache is in step with it, every later selection
    of the request returns [None] too, and the request ends with that error
    without a post, a record or a log row. *)
Theorem no_cookie_ends_the_call (E : Env) (a : GenerateArgs) (w w1 : World)
        (Hvalid : valid_size a = true)
        (Hsel : CookiePool.get_next_cookie E w = (Ok None, w1)) :
  ImageGenerator.generate E a w = (Ok no_cookie, w1) /\
  (forall n last,
     ImageGenerator.retries E a (S n) last w =
     ImageGenerator.retries E a n (GenerationResult.error no_cookie) w1) /\
  (forall d max_cookie_retries,
     pool_ok w -> synced w -> same_day E d -> 1 <= max_cookie_retries ->
     exists w',
       ImageGenerator.generate_with_retry E a max_cookie_retries w =
         (Ok (all_failed (GenerationResult.error no_cookie)), w') /\
       posts w' = posts w /\ cookies w' = cookies w /\
       generation_logs w' = generation_logs w).
Proof.
  pose proof (generate_none E a w w1 Hvalid Hsel) as Hg.
  split; [exact Hg|split].
  - intros n last. apply (retries_failure E a n last w no_cookie w1 Hg). reflexivity.
  - intros d m Hok Hsy Hd Hm.
    destruct (none_means_exhausted E d w w1 Hd Hok Hsy Hsel)
      as (Hc & Hl & Hp & Hok1 & Hex & Hst).
    unfold ImageGenerator.generate_with_retry.
    destruct (Z.to_nat m) as [|n] eqn:Hn; [lia|].
    rewrite (retries_failure E a n None w no_cookie w1 Hg eq_refl).
    destruct (retries_exhausted E d a n w1 (GenerationResult.error no_cookie)
                Hvalid Hd Hok1 Hex Hst) as (w' & Hrun & Hc' & Hl' & Hp').
    exists w'. rewrite Hrun. split.
    + destruct n; reflexivity.
    + repeat split; congruence.
Qed.


Lemma no_cookie_ends_the_call_witness :
  valid_size a_cat = true /\
  fst (CookiePool.get_next_cookie env_ok (started [alice_spent])) = Ok None /\
  pool_ok (started [alice_spent]) /\ synced (started [alice_spent]) /\
  same_day env_ok 10 /\
  exists w',
    ImageGenerator.generate_with_retry env_ok a_cat 3 (started [alice_spent]) =
      (Ok (all_failed (GenerationResult.error no_cookie)), w') /\
    posts w' = 0%nat.
Proof.
  assert (Hv : valid_size a_cat = true) by reflexivity.
  assert (Hok : pool_ok (started [alice_spent])) by (left; reflexivity).
  assert (Hsy : synced (started [alice_spent])) by (left; reflexivity).
  assert (Hd : same_day env_ok 10) by (intros tick; reflexivity).
  repeat split; try assumption.
  destruct (no_cookie_ends_the_call env_ok a_cat (started [alice_spent])
              (snd (CookiePool.get_next_cookie env_ok (started [alice_spent])))
              Hv eq_refl) as (_ & _ & Hstay).
  destruct (Hstay 10 3 Hok Hsy Hd) as (w' & Hrun & Hp & _); [lia|].
  exists w'. split; assumption.
Defined.


(** C4 as stated fails: the first selection of a request finds the only
    credential spent, midnight passes, the second iteration selects it and
    posts, and the request succeeds.  On one and the same day the request
    still selects three times. *)
Lemma exhausted_request_reaches_backend :
  fst (CookiePool.get_next_cookie env_midnight (started [alice_spent])) = Ok None /\
  fst (ImageGenerator.generate_with_retry env_midnight a_cat 3
         (started [alice_spent])) =
    Ok (GenerationResult.mk true None (Some "iVBORw0KGgo=") None (Some 1)) /\
  posted (trace (snd (ImageGenerator.generate_with_retry env_midnight a_cat 3
                        (started [alice_spent])))) = [1] /\
  probed (trace (snd (ImageGenerator.generate_with_retry env_ok a_cat 3
                        (started [alice_spent])))) = [1; 1; 1].
Proof. vm_compute. repeat split. Qed.


(** C5, as the code has it.  On a 401 the retry loop of [_do_generate]
    returns at once, at whatever iteration it is, after that single post;
    [generate] then records one failure on the credential, writes one log row
    and returns the error.  [generate_with_retry] goes on with its next
    iteration, which selects by round robin among all credentials. *)
Theorem auth_rejected_ends_the_attempt (E : Env) (a : GenerateArgs)
        (w w1 : World) (ck : Cookie.t) (text : string) (data : Json)
        (Hvalid : valid_size a = true)
        (Hsel : CookiePool.get_next_cookie E w = (Ok (Some ck), w1))
        (Hretries : 0 < MAX_RETRIES E)
        (H401 : backend E (posts w1) (request_of E ck a) = Http 401 text data) :
  (forall remaining attempt w0,
     backend E (posts w0) (request_of E ck a) = Http 401 text data ->
     ImageGenerator.attempts E ck (request_of E ck a) (S remaining) attempt w0 =
     (Ok (auth_rejected ck), post_added (Cookie.id ck) (request_of E ck a) w0)) /\
  exists w',
    ImageGenerator.generate E a w = (Ok (auth_rejected ck), w') /\
    appended w1 w'
      (SessionPost (Cookie.id ck) (request_of E ck a)
       :: mark_events (Cookie.id ck) false
       ++ [DbAddGenerationLog (log_of a ck (auth_rejected ck))]) /\
    generation_logs w' =
      (generation_logs w1 ++ [log_of a ck (auth_rejected ck)])%list /\
    forall n last,
      ImageGenerator.retries E a (S n) last w =
      ImageGenerator.retries E a n (Some "Cookie/Token无效或已过期") w'.
Proof.
  split.
  - intros r att w0 Hb. eapply attempts_401. exact Hb.
  - apply generate_failed_once; try assumption; [|reflexivity].
    destruct (Z.to_nat (MAX_RETRIES E)) as [|r] eqn:Hr; [lia|].
    eapply attempts_401. exact H401.
Qed.


Lemma auth_rejected_ends_the_attempt_witness :
  valid_size a_cat = true /\ 0 < MAX_RETRIES env_unauthorized /\
  exists w',
    ImageGenerator.generate env_unauthorized a_cat (started [alice]) =
    (Ok (auth_rejected alice), w').
Proof.
  assert (Hv : valid_size a_cat = true) by reflexivity.
  assert (Hr : 0 < MAX_RETRIES env_unauthorized) by (cbn; lia).
  repeat split; try assumption.
  destruct (auth_rejected_ends_the_attempt env_unauthorized a_cat
              (started [alice])
              (snd (CookiePool.get_next_cookie env_unauthorized (started [alice])))
              alice "unauthorized" (JsonError None)
              Hv eq_refl Hr eq_refl) as (_ & w' & Hg & _).
  exists w'. exact Hg.
Defined.


(** C5 as stated fails: with one credential and a backend that answers 401,
    one request posts three times with the rejected credential. *)
Lemma rejected_credential_is_retried :
  backend env_unauthorized 0 (request_of env_unauthorized alice a_cat) =
    Http 401 "unauthorized" (JsonError None) /\
  posted (trace (snd (ImageGenerator.generate_with_retry env_unauthorized a_cat 3
                        (started [alice])))) = [1; 1; 1] /\
  recorded (trace (snd (ImageGenerator.generate_with_retry env_unauthorized a_cat 3
                          (started [alice])))) =
    [(1, false); (1, false); (1, false)].
Proof. vm_compute. repeat split. Qed.


(** Every outcome a request records has its log row. *)
Lemma retries_accounts E a : forall n last w,
  pool_ok w ->
  exists result w' evs,
    ImageGenerator.retries E a n last w = (Ok result, w') /\
    appended w w' evs /\ pool_ok w' /\
    generation_logs w' = (generation_logs w ++ logged evs)%list /\
    map outcome_of_log (logged evs) = map outcome_of_record (recorded evs).
Proof.
  induction n as [|n IH]; intros last w Hok.
  - eexists. exists w, []. split; [reflexivity|].
    unfold appended. rewrite !app_nil_r. repeat split. exact Hok.
  - destruct (generate_accounts E a w Hok)
      as (r1 & w1 & evs1 & Hg & Ha1 & Hok1 & Hacc).
    assert (H1 : generation_logs w1 = (generation_logs w ++ logged evs1)%list /\
                 map outcome_of_log (logged evs1) =
                 map outcome_of_record (recorded evs1)).
    { destruct (obtained E a w) as [ck|].
      - destruct Hacc as (Hr & Hl & Hlogs & _). rewrite Hr, Hl. split; [exact Hlogs|].
        reflexivity.
      - destruct Hacc as (Hr & Hl & _ & Hlogs & _). rewrite Hr, Hl, app_nil_r.
        split; [exact Hlogs|reflexivity]. }
    destruct H1 as (Hlogs1 & Hout1).
    cbn [ImageGenerator.retries]. unfold bind at 1. rewrite Hg.
    destruct (GenerationResult.success r1).
    + exists r1, w1, evs1. repeat split; assumption.
    + destruct (IH (GenerationResult.error r1) w1 Hok1)
        as (r2 & w2 & evs2 & Hrun & Ha2 & Hok2 & Hlogs2 & Hout2).
      exists r2, w2, (evs1 ++ evs2)%list. rewrite Hrun.
      unfold appended in *. rewrite logged_app, recorded_app, !map_app.
      repeat split; try assumption.
      * rewrite Ha2, Ha1, app_assoc. reflexivity.
      * rewrite Hlogs2, Hlogs1, app_assoc. reflexivity.
      * rewrite Hout1, Hout2. reflexivity.
Qed.


(** C6.  A call of [generate] that obtains a credential records exactly one
    outcome, for that credential and with the success flag of the result, and
    writes exactly one log row, however many posts its retry loop made (at
    most [MAX_RETRIES], all with that credential); a call that obtains none
    records nothing, logs nothing and posts nothing.  Over a whole
    [generate_with_retry] the log rows written are, in order, the outcomes
    recorded. *)
Theorem generate_accounts_once (E : Env) (a : GenerateArgs) (w : World)
        (Hok : pool_ok w) :
  (exists result w' evs,
     ImageGenerator.generate E a w = (Ok result, w') /\
     appended w w' evs /\
     match obtained E a w with
     | Some ck =>
         recorded evs = [(Cookie.id ck, GenerationResult.success result)] /\
         logged evs = [log_of a ck result] /\
         generation_logs w' = (generation_logs w ++ [log_of a ck result])%list /\
         Forall (eq (Cookie.id ck)) (posted evs) /\
         (List.length (posted evs) <= Z.to_nat (MAX_RETRIES E))%nat
     | None =>
         recorded evs = [] /\ logged evs = [] /\ posted evs = [] /\
         generation_logs w' = generation_logs w /\
         GenerationResult.success result = false
     end) /\
  (forall max_cookie_retries, exists result w' evs,
     ImageGenerator.generate_with_retry E a max_cookie_retries w = (Ok result, w') /\
     appended w w' evs /\
     generation_logs w' = (generation_logs w ++ logged evs)%list /\
     map outcome_of_log (logged evs) = map outcome_of_record (recorded evs)).
Proof.
  split.
  - destruct (generate_accounts E a w Hok) as (r & w' & evs & Hg & Ha & _ & Hacc).
    exists r, w', evs. auto.
  - intros n. unfold ImageGenerator.generate_with_retry.
    destruct (retries_accounts E a (Z.to_nat n) None w Hok)
      as (r & w' & evs & Hrun & Ha & _ & Hl & Ho).
    exists r, w', evs. auto.
Qed.


Lemma generate_accounts_once_witness :
  pool_ok (started [alice]) /\
  exists result w' evs,
    ImageGenerator.generate env_throttled a_cat (started [alice]) = (Ok result, w') /\
    appended (started [alice]) w' evs /\
    recorded evs = [(1, GenerationResult.success result)] /\
    logged evs = [log_of a_cat alice result].
Proof.
  assert (Hok : pool_ok (started [alice])) by (left; reflexivity).
  split; [exact Hok|].
  destruct (generate_accounts_once env_throttled a_cat (started [alice]) Hok)
    as ((result & w' & evs & Hg & Ha & Hacc) & _).
  exists result, w', evs.
  change (obtained env_throttled a_cat (started [alice])) with (Some alice) in Hacc.
  destruct Hacc as (Hr & Hl & _).
  repeat split; assumption.
Defined.


(** Throttled twice and served on the third post: one success recorded, one
    log row. *)
Example throttled_twice_then_served :
  let w' := snd (ImageGenerator.generate env_throttled a_cat (started [alice])) in
  fst (ImageGenerator.generate env_throttled a_cat (started [alice])) =
    Ok (GenerationResult.mk true None (Some "iVBORw0KGgo=") None (Some 1)) /\
  posted (trace w') = [1; 1; 1] /\
  recorded (trace w') = [(1, true)] /\
  generation_logs w' =
    [GenerationLog.mk "a cat" 512 512 (Some 1) None "success" None None].
Proof. vm_compute. repeat split. Qed.


(** C7.  A request whose width or height is below [MIN_IMAGE_SIZE] is
    rejected with the size error in an unchanged world: no clock reading, no
    selection, no read or write of the store, no post.  [generate_with_retry]
    fails likewise, whatever its number of iterations. *)
Theorem undersized_request_touches_nothing E a w :
  width a < MIN_IMAGE_SIZE \/ height a < MIN_IMAGE_SIZE ->
  ImageGenerator.generate E a w =
    (Ok (GenerationResult.mk false None None (Some "尺寸不能小于 256x256") None), w) /\
  forall max_cookie_retries, exists result,
    ImageGenerator.generate_with_retry E a max_cookie_retries w = (Ok result, w) /\
    GenerationResult.success result = false.
Proof.
  intros H.
  assert (Hg : ImageGenerator.generate E a w =
    (Ok (GenerationResult.mk false None None (Some "尺寸不能小于 256x256") None), w)).
  { unfold ImageGenerator.generate, ImageGenerator._validate_size.
    assert (Hb : (width a <? MIN_IMAGE_SIZE) || (height a <? MIN_IMAGE_SIZE) = true).
    { apply orb_true_iff. destruct H; [left|right]; apply Z.ltb_lt; assumption. }
    rewrite Hb. reflexivity. }
  split; [exact Hg|].
  intros n. unfold ImageGenerator.generate_with_retry.
  generalize (@None string).
  induction (Z.to_nat n) as [|k IH]; intros last.
  - eexists. split; reflexivity.
  - erewrite retries_failure; [apply IH|exact Hg|reflexivity].
Qed.


Lemma undersized_request_touches_nothing_witness :
  (width tiny < MIN_IMAGE_SIZE \/ height tiny < MIN_IMAGE_SIZE) /\
  ImageGenerator.generate env_ok tiny (started [alice]) =
    (Ok (GenerationResult.mk false None None (Some "尺寸不能小于 256x256") None),
     started [alice]).
Proof.
  assert (H : width tiny < MIN_IMAGE_SIZE \/ height tiny < MIN_IMAGE_SIZE)
    by (left; reflexivity).
  split; [exact H|].
  exact (proj1 (undersized_request_touches_nothing env_ok tiny (started [alice]) H)).
Defined.


(** C8.  For a stored credential whose [daily_date] is not the current day,
    [get_cookie_daily_usage] returns 0 (and leaves the row as it is), and
    [update_cookie_usage] leaves a row dated today whose [daily_used] is 1
    after a success and 0 after a failure: the count was reset before it was
    used. *)
Theorem stale_daily_window_resets E w i row :
  Database.select_by_id i (cookies w) = Some row ->
  Cookie.daily_date row <> Some (strftime_date (clock E (clock_reads w))) ->
  (exists w', Database.get_cookie_daily_usage E i w = (Ok 0, w') /\
              cookies w' = cookies w) /\
  (forall success, exists w' row',
     Database.update_cookie_usage E i success w = (Ok tt, w') /\
     Database.select_by_id i (cookies w') = Some row' /\
     Cookie.daily_date row' = Some (strftime_date (clock E (clock_reads w))) /\
     Cookie.daily_used row' = Some (if success then 1 else 0) /\
     Cookie.use_count row' = Cookie.use_count row + (if success then 1 else 0) /\
     Cookie.error_count row' = Cookie.error_count row + (if success then 0 else 1)).
Proof.
  intros Hrow Hstale. apply date_is_false in Hstale. split.
  - rewrite daily_usage_run.
    assert (Hu : usage_at E w (clock_reads w) i = 0).
    { unfold usage_at, Database.daily_usage_on. rewrite Hrow, Hstale. reflexivity. }
    rewrite Hu. eexists. split; reflexivity.
  - intros success. rewrite update_cookie_usage_run.
    unfold usage_updated, updated_table. rewrite Hrow, Hstale. cbn [negb].
    destruct success.
    + eexists. exists (Database.count_success (strftime_date (clock E (clock_reads w)))
                (Database.reset_daily (strftime_date (clock E (clock_reads w))) row)).
      split; [reflexivity|]. wsimpl.
      rewrite !select_by_id_update, Hrow by reflexivity.
      repeat split. cbn. lia.
    + eexists. exists (Database.count_error
                (Database.reset_daily (strftime_date (clock E (clock_reads w))) row)).
      split; [reflexivity|]. wsimpl.
      rewrite !select_by_id_update, Hrow by reflexivity.
      repeat split. cbn. lia.
Qed.


Lemma stale_daily_window_resets_witness :
  Database.select_by_id 2 (cookies (started [bob_old])) = Some bob_old /\
  Cookie.daily_date bob_old <> Some 10 /\
  exists w', Database.get_cookie_daily_usage env_ok 2 (started [bob_old]) = (Ok 0, w').
Proof.
  assert (Hrow : Database.select_by_id 2 (cookies (started [bob_old])) = Some bob_old)
    by reflexivity.
  assert (Hstale : Cookie.daily_date bob_old <>
                   Some (strftime_date (clock env_ok (clock_reads (started [bob_old])))))
    by discriminate.
  repeat split; [exact Hstale|].
  destruct (stale_daily_window_resets env_ok (started [bob_old]) 2 bob_old Hrow Hstale)
    as ((w' & Hread & _) & _).
  exists w'. exact Hread.
Defined.


(** C9, as the code has it.  The response of the HTTP handler has no field
    for the credential, and it does not depend on which ids and labels the
    credentials carry: renaming them in the store and in the pool leaves the
    response unchanged.  (Its error text is that of the backend or of the
    exception, which may depend on the token and proxy of the credential
    used: see [error_text_names_the_proxy].) *)
Theorem http_response_hides_credential f g E request w :
  (forall x y, f x = f y -> x = y) ->
  fst (Router.generate_image E request (rename_world f g w)) =
  fst (Router.generate_image E request w).
Proof.
  intros Hinj. rewrite (sim_generate_image f g Hinj). unfold renamed_outcome. cbn [fst].
  destruct (fst (Router.generate_image E request w)); reflexivity.
Qed.


Lemma http_response_hides_credential_witness :
  (forall x y : Z, x + 100 = y + 100 -> x = y) /\
  fst (Router.generate_image env_ok (GenerateRequest.mk "a cat" None 512 512 None None)
         (rename_world (fun x => x + 100) (fun s => s) (started [alice]))) =
  fst (Router.generate_image env_ok (GenerateRequest.mk "a cat" None 512 512 None None)
         (started [alice])).
Proof.
  assert (Hinj : forall x y : Z, x + 100 = y + 100 -> x = y) by (intros; lia).
  split; [exact Hinj|].
  exact (http_response_hides_credential (fun x => x + 100) (fun s => s) env_ok
           (GenerateRequest.mk "a cat" None 512 512 None None) (started [alice]) Hinj).
Defined.


(** The error text of the response is the text of the exception, which here
    names the proxy of the credential used last. *)
Example error_text_names_the_proxy :
  GenerateResponse.error
    (match fst (Router.generate_image env_dead_proxies
                  (GenerateRequest.mk "a cat" None 512 512 None None)
                  (started [alice_proxied; bob_proxied])) with
     | Ok response => response
     | Raise _ => GenerateResponse.mk false None None None
     end) =
  Some "所有Cookie都失败: 请求失败: Cannot connect to socks5://10.0.0.1:1080".
Proof. vm_compute. reflexivity. Qed.

(** C9 as stated fails for the result of the generator itself: it carries the
    id of the credential used, and follows a renaming of the ids. *)
Lemma generate_result_names_credential :
  fst (ImageGenerator.generate_with_retry env_ok a_cat 3 (started [alice])) =
    Ok (GenerationResult.mk true None (Some "iVBORw0KGgo=") None (Some 1)) /\
  fst (ImageGenerator.generate_with_retry env_ok a_cat 3
         (rename_world (fun x => x + 100) (fun s => s) (started [alice]))) =
    Ok (GenerationResult.mk true None (Some "iVBORw0KGgo=") None (Some 101)).
Proof. vm_compute. repeat split. Qed.


(** C10, as the code has it.  For an id in SQLite's range with no row in the
    store, [get_cookie_daily_usage] returns 0 and
    [get_cookie_remaining_quota] returns the quota floored at 0: the quota
    itself when it is not negative, 0 when it was configured negative.
    Neither raises and neither writes the store. *)
Theorem missing_cookie_reads_zero (E : Env) (w : World) (i : Z)
        (Hrange : sqlite_integer i)
        (Hnone : Database.select_by_id i (cookies w) = None) :
  exists w1 w2,
    Database.get_cookie_daily_usage E i w = (Ok 0, w1) /\
    CookiePool.get_cookie_remaining_quota E i w =
      (Ok (Z.max 0 (DAILY_QUOTA E)), w2) /\
    (0 <= DAILY_QUOTA E -> Z.max 0 (DAILY_QUOTA E) = DAILY_QUOTA E) /\
    (DAILY_QUOTA E < 0 -> Z.max 0 (DAILY_QUOTA E) = 0) /\
    cookies w1 = cookies w /\ cookies w2 = cookies w.
Proof.
  assert (Hu : usage_at E w (clock_reads w) i = 0).
  { unfold usage_at, Database.daily_usage_on. rewrite Hnone. reflexivity. }
  do 2 eexists. split; [|split; [|split; [|split; [|split]]]].
  - rewrite daily_usage_run, Hu. reflexivity.
  - unfold CookiePool.get_cookie_remaining_quota, bind.
    rewrite daily_usage_run, Hu, Z.sub_0_r. reflexivity.
  - lia.
  - lia.
  - reflexivity.
  - reflexivity.
Qed.

Lemma missing_cookie_reads_zero_witness :
  sqlite_integer 7 /\
  Database.select_by_id 7 (cookies (started [alice])) = None /\
  exists w2,
    CookiePool.get_cookie_remaining_quota env_ok 7 (started [alice]) = (Ok 100, w2).
Proof.
  assert (Hrange : sqlite_integer 7) by (unfold sqlite_integer; lia).
  assert (Hnone : Database.select_by_id 7 (cookies (started [alice])) = None)
    by reflexivity.
  split; [exact Hrange|split; [exact Hnone|]].
  destruct (missing_cookie_reads_zero env_ok (started [alice]) 7 Hrange Hnone)
    as (w1 & w2 & _ & Hq & _).
  exists w2. exact Hq.
Defined.

(** C10 as stated fails for a negative quota: with [DAILY_QUOTA=-5] an id
    without a row has a remaining quota of 0, not of -5. *)
Lemma negative_quota_is_floored :
  Database.select_by_id 7 (cookies (started [alice])) = None /\
  DAILY_QUOTA env_negative_quota = -5 /\
  fst (CookiePool.get_cookie_remaining_quota env_negative_quota 7 (started [alice])) =
    Ok 0.
Proof. vm_compute. repeat split. Qed.

(** ** Further properties of the code *)

(** X1.  [generate] accepts a size exactly when width and height both lie in
    [MIN_IMAGE_SIZE .. MAX_IMAGE_SIZE], bounds included; a request that is not
    too small but too large is rejected with the other size error, in an
    unchanged world. *)
Theorem size_bounds_are_inclusive (E : Env) (a : GenerateArgs) (w : World) :
  (valid_size a = true <->
   MIN_IMAGE_SIZE <= width a <= MAX_IMAGE_SIZE /\
   MIN_IMAGE_SIZE <= height a <= MAX_IMAGE_SIZE) /\
  (MIN_IMAGE_SIZE <= width a -> MIN_IMAGE_SIZE <= height a ->
   MAX_IMAGE_SIZE < width a \/ MAX_IMAGE_SIZE < height a ->
   ImageGenerator.generate E a w =
   (Ok (GenerationResult.mk false None None (Some "尺寸不能大于 2048x2048") None),
    w)).
Proof.
  unfold valid_size, ImageGenerator.generate, ImageGenerator._validate_size.
  split.
  - destruct (width a <? MIN_IMAGE_SIZE) eqn:H1;
    destruct (height a <? MIN_IMAGE_SIZE) eqn:H2;
    destruct (width a >? MAX_IMAGE_SIZE) eqn:H3;
    destruct (height a >? MAX_IMAGE_SIZE) eqn:H4; cbn [orb fst];
    rewrite ?Z.ltb_lt, ?Z.ltb_ge in H1, H2;
    rewrite Z.gtb_ltb in H3, H4;
    rewrite ?Z.ltb_lt, ?Z.ltb_ge in H3, H4;
    split; intros H; try discriminate; try reflexivity; lia.
  - intros H1 H2 H3.
    apply Z.ltb_ge in H1, H2. rewrite H1, H2. cbn [orb].
    assert (Hb : (width a >? MAX_IMAGE_SIZE) || (height a >? MAX_IMAGE_SIZE) = true).
    { apply orb_true_iff. rewrite !Z.gtb_ltb, !Z.ltb_lt. exact H3. }
    rewrite Hb. reflexivity.
Qed.

(** X2.  From a pool whose cursor is in range, a selection, a recorded
    outcome, a call of [generate] and a whole request all return normally
    (no [IndexError]) and leave the cursor in range. *)
Theorem cursor_stays_in_range (E : Env) (w : World) (Hok : pool_ok w) :
  (exists res w', CookiePool.get_next_cookie E w = (Ok res, w') /\ pool_ok w') /\
  (forall i s, exists w',
     CookiePool.mark_cookie_used E i s w = (Ok tt, w') /\ pool_ok w') /\
  (forall a, exists result w',
     ImageGenerator.generate E a w = (Ok result, w') /\ pool_ok w') /\
  (forall a n, exists result w',
     ImageGenerator.generate_with_retry E a n w = (Ok result, w') /\ pool_ok w').
Proof.
  split; [|split; [|split]].
  - destruct (get_next_cookie_frame E w Hok)
      as (res & w1 & evs & Hsel & _ & _ & _ & _ & _ & Hok1).
    exists res, w1. split; assumption.
  - intros i s. rewrite mark_cookie_used_run. eexists. split; [reflexivity|].
    apply marked_frame.
  - intros a. destruct (generate_accounts E a w Hok) as (r & w' & evs & Hg & _ & Hok' & _).
    exists r, w'. split; assumption.
  - intros a n. unfold ImageGenerator.generate_with_retry.
    destruct (retries_accounts E a (Z.to_nat n) None w Hok)
      as (r & w' & evs & Hrun & _ & Hok' & _).
    exists r, w'. split; assumption.
Qed.

Lemma cursor_stays_in_range_witness :
  pool_ok (started [alice; bob]) /\
  exists result w',
    ImageGenerator.generate_with_retry env_unauthorized a_cat 3 (started [alice; bob]) =
      (Ok result, w') /\
    pool_ok w'.
Proof.
  assert (Hok : pool_ok (started [alice; bob])) by (left; reflexivity).
  split; [exact Hok|].
  destruct (cursor_stays_in_range env_unauthorized (started [alice; bob]) Hok)
    as (_ & _ & _ & Hreq).
  exact (Hreq a_cat 3).
Defined.

(** X3.  While the cache is younger than its time to live, a selection
    returns the cached credential under the cursor as soon as the store reads
    a usage below the quota for its id.  It asks the store for nothing else:
    the list of active credentials is not reloaded, so a credential whose row
    was deleted (its usage then reads 0) is still handed out. *)
Theorem cached_credential_is_trusted (E : Env) (w : World) (ck : Cookie.t)
        (Hfresh : stale E w = false)
        (Hat : nth_error (_cookies_cache w) (_current_index w) = Some ck)
        (Hcap : usage_at E w (S (clock_reads w)) (Cookie.id ck) < DAILY_QUOTA E) :
  exists w',
    CookiePool.get_next_cookie E w = (Ok (Some ck), w') /\
    appended w w' [DbGetCookieDailyUsage (Cookie.id ck)] /\
    _cookies_cache w' = _cookies_cache w /\
    (Database.select_by_id (Cookie.id ck) (cookies w) = None ->
     usage_at E w (S (clock_reads w)) (Cookie.id ck) = 0).
Proof.
  rewrite get_next_cookie_unfold. unfold refreshed. rewrite Hfresh. cbn [orb]. wsimpl.
  destruct (_cookies_cache w) as [|c l] eqn:Hc.
  { destruct (_current_index w); discriminate. }
  rewrite <- Hc in *.
  replace (List.length (_cookies_cache w)) with (S (List.length l))
    by (rewrite Hc; reflexivity).
  cbn [CookiePool.probe]. unfold bind at 1. cbn [get]. wsimpl. rewrite Hat.
  unfold bind at 1. cbn [modify]. unfold bind at 1. rewrite daily_usage_run.
  wsimpl.
  change (usage_at E (set_current_index ?i (set_clock_reads ?n w))) with (usage_at E w).
  apply Z.ltb_lt in Hcap. rewrite Hcap.
  eexists. split; [reflexivity|]. unfold appended. wsimpl.
  repeat split.
  intros Hnone. unfold usage_at, Database.daily_usage_on. rewrite Hnone. reflexivity.
Qed.

Lemma cached_credential_is_trusted_witness :
  stale env_ok cached_only = false /\
  Database.select_by_id 1 (cookies cached_only) = None /\
  exists w', CookiePool.get_next_cookie env_ok cached_only = (Ok (Some alice), w').
Proof.
  assert (Hfresh : stale env_ok cached_only = false) by reflexivity.
  split; [exact Hfresh|split; [reflexivity|]].
  destruct (cached_credential_is_trusted env_ok cached_only alice Hfresh eq_refl)
    as (w' & Hsel & _).
  - vm_compute. reflexivity.
  - exists w'. exact Hsel.
Defined.

Lemma insert_by_use_count_sorted x l :
  Sorted by_use_count l ->
  Sorted by_use_count (Database.insert_by Database.use_count_asc x l).
Proof.
  induction 1 as [|y l Hs IH Hhd]; cbn.
  - repeat constructor.
  - unfold Database.use_count_asc at 1.
    destruct (Cookie.use_count x <=? Cookie.use_count y) eqn:Hle.
    + apply Z.leb_le in Hle. repeat constructor; assumption.
    + apply Z.leb_gt in Hle. constructor; [exact IH|].
      destruct l as [|z l]; cbn.
      * constructor. unfold by_use_count. lia.
      * unfold Database.use_count_asc.
        destruct (Cookie.use_count x <=? Cookie.use_count z);
          constructor; unfold by_use_count; try lia.
        inversion Hhd; assumption.
Qed.

Lemma select_all_active_sorted table :
  Sorted by_use_count (Database.select_all true table) /\
  Permutation (Database.select_all true table) (filter Cookie.is_active table).
Proof.
  unfold Database.select_all. split; [|apply order_by_perm].
  unfold Database.order_by.
  induction (filter Cookie.is_active table) as [|x l IH]; cbn; [constructor|].
  apply insert_by_use_count_sorted. exact IH.
Qed.

(** X4.  After [mark_cookie_used] the cache holds exactly the active rows of
    the store, in ascending order of [use_count], and is stamped with the
    clock reading of that reload. *)
Theorem outcome_reloads_cache (E : Env) (i : Z) (s : bool) (w : World) :
  exists w',
    CookiePool.mark_cookie_used E i s w = (Ok tt, w') /\
    Sorted by_use_count (_cookies_cache w') /\
    Permutation (_cookies_cache w') (filter Cookie.is_active (cookies w')) /\
    _cache_time w' = Some (clock E (S (clock_reads w))) /\
    pool_ok w'.
Proof.
  rewrite mark_cookie_used_run. eexists. split; [reflexivity|].
  unfold marked, refreshed. cbn [orb]. unfold reloaded. wsimpl.
  split; [|split; [|split]].
  - apply select_all_active_sorted.
  - apply select_all_active_sorted.
  - destruct s; reflexivity.
  - apply (refreshed_forced_pool_ok E
             (if s then usage_updated E i s w
              else set_trace (trace (usage_updated E i s w) ++ [DbGetCookie i])
                     (usage_updated E i s w))).
Qed.

Lemma usage_after_update d i s table row :
  Database.select_by_id i table = Some row ->
  Database.daily_usage_on d i (updated_table d i s table) =
  Database.daily_usage_on d i table
  + (if s && negb (null_today d row) then 1 else 0).
Proof.
  intros Hrow. unfold updated_table, Database.daily_usage_on, null_today.
  rewrite Hrow.
  destruct (Database.date_is (Cookie.daily_date row) d) eqn:Hd; cbn [negb andb];
    destruct s; rewrite ?select_by_id_update by reflexivity; rewrite Hrow;
    cbn [option_map Database.count_success Database.count_error
         Database.reset_daily Cookie.daily_date Cookie.daily_used
         Database.date_is andb negb]; rewrite ?Hd, ?Z.eqb_refl;
    destruct (Cookie.daily_used row); cbn [option_map negb andb]; lia.
Qed.

(** X5.  On one day, recording an outcome for a stored credential and then
    asking for its remaining quota gives the quota minus the usage read
    before, floored at 0, with one more taken off after a success and nothing
    more after a failure.  The one exception is a row dated today whose
    [daily_used] is NULL: there a success counts nothing. *)
Theorem outcome_then_remaining_quota (E : Env) (d : Date) (w : World) (i : Z)
        (row : Cookie.t) (s : bool)
        (Hday : same_day E d)
        (Hrow : Database.select_by_id i (cookies w) = Some row) :
  fst ((CookiePool.mark_cookie_used E i s ;;;
        CookiePool.get_cookie_remaining_quota E i) w) =
  Ok (Z.max 0 (DAILY_QUOTA E
               - (Database.daily_usage_on d i (cookies w)
                  + (if s && negb (null_today d row) then 1 else 0)))).
Proof.
  unfold bind at 1. rewrite mark_cookie_used_run.
  unfold CookiePool.get_cookie_remaining_quota, bind. rewrite daily_usage_run.
  cbn [fst ret]. unfold usage_at. rewrite Hday.
  assert (Hc : cookies (marked E i s w) = updated_table d i s (cookies w)).
  { unfold marked.
    destruct (refreshed_frame E true
      (if s then usage_updated E i s w
       else set_trace (trace (usage_updated E i s w) ++ [DbGetCookie i])
              (usage_updated E i s w))) as (-> & _).
    destruct s; unfold usage_updated; wsimpl; rewrite Hday; reflexivity. }
  rewrite Hc, (usage_after_update d i s _ row Hrow). reflexivity.
Qed.

Lemma outcome_then_remaining_quota_witness :
  same_day env_ok 10 /\
  Database.select_by_id 2 (cookies (started [bob_old])) = Some bob_old /\
  fst ((CookiePool.mark_cookie_used env_ok 2 true ;;;
        CookiePool.get_cookie_remaining_quota env_ok 2) (started [bob_old])) =
  Ok (Z.max 0 (100 - (Database.daily_usage_on 10 2 [bob_old] + 1))).
Proof.
  assert (Hd : same_day env_ok 10) by (intros tick; reflexivity).
  split; [exact Hd|split; [reflexivity|]].
  exact (outcome_then_remaining_quota env_ok 10 (started [bob_old]) 2 bob_old true
           Hd eq_refl).
Defined.

Lemma same_credential_refl c : same_credential c c.
Proof. unfold same_credential. repeat split; lia. Qed.

Lemma same_credential_trans a b c :
  same_credential a b -> same_credential b c -> same_credential a c.
Proof. unfold same_credential. intuition (try congruence; try lia). Qed.

Lemma grown_refl t : grown t t.
Proof. induction t; constructor; auto using same_credential_refl. Qed.

Lemma grown_trans a b c : grown a b -> grown b c -> grown a c.
Proof.
  intros H. revert c. induction H; intros c0 H2; inversion H2; subst; constructor.
  - eapply same_credential_trans; eassumption.
  - apply IHForall2. assumption.
Qed.

Lemma update_where_id_grown i f t :
  (forall c, same_credential c (f c)) ->
  grown t (Database.update_where_id i f t).
Proof.
  intros Hf. induction t as [|c t IH]; cbn; constructor; [|exact IH].
  destruct (Cookie.id c =? i); [apply Hf|apply same_credential_refl].
Qed.

Lemma updated_table_grown d i s t : grown t (updated_table d i s t).
Proof.
  unfold updated_table.
  assert (H1 : grown t
    match Database.select_by_id i t with
    | Some row =>
        if negb (Database.date_is (Cookie.daily_date row) d)
        then Database.update_where_id i (Database.reset_daily d) t
        else t
    | None => t
    end).
  { destruct (Database.select_by_id i t) as [row|]; [|apply grown_refl].
    destruct (negb _); [|apply grown_refl].
    apply update_where_id_grown. intros c. unfold same_credential. cbn.
    repeat split; lia. }
  eapply grown_trans; [exact H1|].
  destruct s; apply update_where_id_grown; intros c; unfold same_credential; cbn;
    repeat split; lia.
Qed.

Lemma select_by_id_other i j f t :
  i <> j -> (forall c, Cookie.id (f c) = Cookie.id c) ->
  Database.select_by_id j (Database.update_where_id i f t) =
  Database.select_by_id j t.
Proof.
  intros Hij Hf. unfold Database.select_by_id, Database.update_where_id.
  induction t as [|c t IH]; [reflexivity|]. cbn [map find].
  destruct (Cookie.id c =? i) eqn:Hc.
  - rewrite Hf. apply Z.eqb_eq in Hc.
    assert (Hj : (Cookie.id c =? j) = false) by (apply Z.eqb_neq; congruence).
    rewrite Hj. exact IH.
  - destruct (Cookie.id c =? j); [reflexivity|exact IH].
Qed.

Lemma usage_after_update_other d i j s t :
  i <> j ->
  Database.daily_usage_on d j (updated_table d i s t) = Database.daily_usage_on d j t.
Proof.
  intros Hij. unfold Database.daily_usage_on, updated_table.
  destruct (Database.select_by_id i t) as [row|]; [destruct (negb _)|]; destruct s;
    rewrite ?select_by_id_other by (auto; reflexivity); reflexivity.
Qed.

Lemma usage_after_update_le d i s t :
  Database.daily_usage_on d i (updated_table d i s t) <=
  Database.daily_usage_on d i t + 1.
Proof.
  unfold updated_table, Database.daily_usage_on.
  destruct (Database.select_by_id i t) as [row|] eqn:Hrow.
  - destruct (Database.date_is (Cookie.daily_date row) d) eqn:Hd; cbn [negb];
      destruct s; rewrite ?select_by_id_update by reflexivity; rewrite Hrow;
      cbn [option_map Database.count_success Database.count_error
           Database.reset_daily Cookie.daily_date Cookie.daily_used
           Database.date_is]; rewrite ?Hd, ?Z.eqb_refl;
      destruct (Cookie.daily_used row); cbn [option_map]; lia.
  - destruct s; rewrite select_by_id_update by reflexivity; rewrite Hrow; cbn; lia.
Qed.

Lemma selected_has_capacity E w ck w1 :
  pool_ok w ->
  CookiePool.get_next_cookie E w = (Ok (Some ck), w1) ->
  exists tick, usage_at E w tick (Cookie.id ck) < DAILY_QUOTA E.
Proof.
  intros Hok Hsel.
  assert (Hne : _cookies_cache (refreshed E false w) <> []).
  { intros He. rewrite get_next_cookie_unfold, He in Hsel. discriminate. }
  destruct (get_next_cookie_one E w (refreshed E false w) _ _ _
              (refresh_run E false w) eq_refl eq_refl eq_refl Hok)
    as (m & res & w2 & evs & Hrun & _ & _ & _ & _ & _ & _ & _ & _ & _ & Hres).
  { destruct (_cookies_cache (refreshed E false w)); [congruence|cbn; lia]. }
  rewrite Hsel in Hrun. injection Hrun as <- <-.
  destruct Hres as (_ & Hlt). eexists. exact Hlt.
Qed.

(** What one call of [generate] does to the table of credentials. *)
Lemma generate_store E a w :
  pool_ok w ->
  exists result w',
    ImageGenerator.generate E a w = (Ok result, w') /\ pool_ok w' /\
    (cookies w' = cookies w \/
     exists ck t1 t2,
       usage_at E w t1 (Cookie.id ck) < DAILY_QUOTA E /\
       cookies w' =
       updated_table (strftime_date (clock E t2)) (Cookie.id ck)
                     (GenerationResult.success result) (cookies w)).
Proof.
  intros Hok. destruct (valid_size a) eqn:Hv.
  2:{ rewrite (generate_invalid E a w Hv). do 2 eexists.
      split; [reflexivity|]. split; [exact Hok|left; reflexivity]. }
  destruct (get_next_cookie_frame E w Hok)
    as (sel & w1 & evs1 & Hsel & _ & _ & Hc1 & _ & _ & Hok1).
  destruct sel as [ck|].
  2:{ rewrite (generate_none E a w w1 Hv Hsel). exists no_cookie, w1.
      split; [reflexivity|]. split; [exact Hok1|left; exact Hc1]. }
  destruct (selected_has_capacity E w ck w1 Hok Hsel) as (t1 & Hcap).
  destruct (attempts_run E ck (request_of E ck a) (Z.to_nat (MAX_RETRIES E)) 0 w1)
    as (result & w2 & evs2 & Hatt & _ & _ & _ & _ & Hc2 & _).
  rewrite (generate_some E a w w1 ck result w2 Hv Hsel Hatt).
  exists result. eexists. split; [reflexivity|]. split.
  - unfold log_added, pool_ok. wsimpl.
    apply (marked_frame E (Cookie.id ck) (GenerationResult.success result) w2).
  - right. exists ck, t1, (clock_reads w2). split; [exact Hcap|].
    unfold log_added, marked. wsimpl.
    destruct (refreshed_frame E true
      (if GenerationResult.success result
       then usage_updated E (Cookie.id ck) (GenerationResult.success result) w2
       else set_trace
              (trace (usage_updated E (Cookie.id ck)
                        (GenerationResult.success result) w2)
               ++ [DbGetCookie (Cookie.id ck)])
              (usage_updated E (Cookie.id ck)
                 (GenerationResult.success result) w2))) as (-> & _).
    destruct (GenerationResult.success result); unfold usage_updated; wsimpl;
      rewrite Hc2, Hc1; reflexivity.
Qed.

(** A property of worlds that every call of [generate] keeps is kept by the
    whole request. *)
Lemma retries_preserve E a (P : World -> Prop) :
  (forall w result w', pool_ok w -> P w ->
     ImageGenerator.generate E a w = (Ok result, w') -> P w') ->
  forall n last w, pool_ok w -> P w ->
  exists result w',
    ImageGenerator.retries E a n last w = (Ok result, w') /\ P w' /\ pool_ok w'.
Proof.
  intros Hstep. induction n as [|n IH]; intros last w Hok HP.
  - eexists. exists w. split; [reflexivity|]. split; assumption.
  - destruct (generate_store E a w Hok) as (r1 & w1 & Hg & Hok1 & _).
    pose proof (Hstep w r1 w1 Hok HP Hg) as HP1.
    cbn [ImageGenerator.retries]. unfold bind at 1. rewrite Hg.
    destruct (GenerationResult.success r1).
    + exists r1, w1. split; [reflexivity|]. split; assumption.
    + apply IH; assumption.
Qed.

(** X6.  A whole request leaves the table of credentials row for row as it
    was (same ids, labels, tokens, proxies and active flags, no row added or
    removed), except that [use_count] and [error_count] may have gone up. *)
Theorem request_only_raises_counters (E : Env) (a : GenerateArgs)
        (max_cookie_retries : Z) (w : World) (Hok : pool_ok w) :
  exists result w',
    ImageGenerator.generate_with_retry E a max_cookie_retries w = (Ok result, w') /\
    grown (cookies w) (cookies w').
Proof.
  unfold ImageGenerator.generate_with_retry.
  destruct (retries_preserve E a (fun w' => grown (cookies w) (cookies w')))
    with (n := Z.to_nat max_cookie_retries) (last := @None string) (w := w)
    as (r & w' & Hrun & Hg & _).
  - intros w0 r0 w0' Hok0 HP Hg.
    destruct (generate_store E a w0 Hok0) as (r1 & w1 & Hg1 & _ & Hst).
    rewrite Hg in Hg1. injection Hg1 as <- <-.
    destruct Hst as [->|(ck & t1 & t2 & _ & ->)]; [exact HP|].
    eapply grown_trans; [exact HP|apply updated_table_grown].
  - exact Hok.
  - apply grown_refl.
  - exists r, w'. split; assumption.
Qed.

Lemma request_only_raises_counters_witness :
  pool_ok (started [alice; bob]) /\
  exists result w',
    ImageGenerator.generate_with_retry env_bad_request a_cat 3 (started [alice; bob]) =
      (Ok result, w') /\
    grown [alice; bob] (cookies w').
Proof.
  assert (Hok : pool_ok (started [alice; bob])) by (left; reflexivity).
  split; [exact Hok|].
  exact (request_only_raises_counters env_bad_request a_cat 3 (started [alice; bob]) Hok).
Defined.

(** X7.  For a request that runs alone, with nothing else touching the store
    or the pool between its steps: on one day, if no credential's usage is
    above the quota before the request, none is above it after the request.
    (Two requests that overlap can both select a credential that has one use
    left and both count a success.) *)
Theorem request_stays_within_quota (E : Env) (d : Date) (a : GenerateArgs)
        (max_cookie_retries : Z) (w : World)
        (Hday : same_day E d) (Hok : pool_ok w)
        (Hquota : within_quota E d w) :
  exists result w',
    ImageGenerator.generate_with_retry E a max_cookie_retries w = (Ok result, w') /\
    within_quota E d w'.
Proof.
  unfold ImageGenerator.generate_with_retry.
  destruct (retries_preserve E a (within_quota E d))
    with (n := Z.to_nat max_cookie_retries) (last := @None string) (w := w)
    as (r & w' & Hrun & Hq & _).
  - intros w0 r0 w0' Hok0 HQ Hg.
    destruct (generate_store E a w0 Hok0) as (r1 & w1 & Hg1 & _ & Hst).
    rewrite Hg in Hg1. injection Hg1 as <- <-.
    destruct Hst as [Hc|(ck & t1 & t2 & Hcap & Hc)].
    { unfold within_quota. rewrite Hc. exact HQ. }
    unfold usage_at in Hcap. rewrite Hday in Hcap. rewrite Hday in Hc.
    unfold within_quota. rewrite Hc. intros i.
    destruct (Z.eq_dec (Cookie.id ck) i) as [<-|Hne].
    + pose proof (usage_after_update_le d (Cookie.id ck)
                    (GenerationResult.success r0) (cookies w0)). lia.
    + rewrite usage_after_update_other by exact Hne. apply HQ.
  - exact Hok.
  - exact Hquota.
  - exists r, w'. split; assumption.
Qed.

Lemma nobody_over_quota i :
  Database.daily_usage_on 10 i [alice_spent; bob_old] <= 100.
Proof.
  unfold Database.daily_usage_on, Database.select_by_id. cbn -[Z.eqb].
  repeat (destruct (_ =? i); [vm_compute; discriminate|]).
  vm_compute. discriminate.
Defined.

Lemma request_stays_within_quota_witness :
  same_day env_ok 10 /\ pool_ok (started [alice_spent; bob_old]) /\
  within_quota env_ok 10 (started [alice_spent; bob_old]) /\
  exists result w',
    ImageGenerator.generate_with_retry env_ok a_cat 3 (started [alice_spent; bob_old]) =
      (Ok result, w') /\
    within_quota env_ok 10 w'.
Proof.
  assert (Hd : same_day env_ok 10) by (intros tick; reflexivity).
  assert (Hok : pool_ok (started [alice_spent; bob_old])) by (left; reflexivity).
  assert (Hq : within_quota env_ok 10 (started [alice_spent; bob_old]))
    by exact nobody_over_quota.
  split; [exact Hd|split; [exact Hok|split; [exact Hq|]]].
  exact (request_stays_within_quota env_ok 10 a_cat 3
           (started [alice_spent; bob_old]) Hd Hok Hq).
Defined.

Lemma backoff_rounds_S i rq first n :
  backoff_rounds i rq first (S n) =
  SessionPost i rq :: Sleep first :: backoff_rounds i rq (first + 1) n.
Proof.
  unfold backoff_rounds. cbn [seq flat_map app]. rewrite Z.add_0_r. do 2 f_equal.
  rewrite <- seq_shift, flat_map_concat_map, map_map, <- flat_map_concat_map.
  apply flat_map_ext. intros k. do 3 f_equal. lia.
Qed.

Lemma flat_rounds_S i rq n :
  flat_rounds i rq (S n) = SessionPost i rq :: Sleep 1 :: flat_rounds i rq n.
Proof.
  unfold flat_rounds. cbn [seq flat_map app]. do 2 f_equal.
  rewrite <- seq_shift, flat_map_concat_map, map_map, <- flat_map_concat_map.
  reflexivity.
Qed.

Lemma attempts_throttled E ck rq : forall r att w,
  throttles_from E rq (posts w) ->
  exists w',
    ImageGenerator.attempts E ck rq r att w =
      (Ok (ImageGenerator.failed "超过最大重试次数" (Some (Cookie.id ck))), w') /\
    appended w w' (backoff_rounds (Cookie.id ck) rq (att + 1) r) /\
    posts w' = (posts w + r)%nat.
Proof.
  induction r as [|r IH]; intros att w Hall.
  - exists w. split; [reflexivity|]. unfold appended. cbn. rewrite app_nil_r.
    split; [reflexivity|lia].
  - cbn [ImageGenerator.attempts]. unfold bind at 1. rewrite session_post_run.
    destruct (Hall (posts w) (le_n _)) as (text & data & ->).
    cbn [Z.eqb Pos.eqb]. unfold bind at 1. unfold asyncio_sleep, emit, modify.
    set (w1 := set_trace _ (set_posts _ _)).
    destruct (IH (att + 1) w1) as (w' & Hrun & Ha & Hp).
    { intros k Hk. apply Hall. subst w1. wsimpl. lia. }
    exists w'. rewrite Hrun. split; [reflexivity|].
    unfold appended in *. subst w1. wsimpl. split; [|lia].
    rewrite Ha, backoff_rounds_S, <- !app_assoc. reflexivity.
Qed.

(** X8.  When the backend answers 429 to every post, [_do_generate] posts
    [MAX_RETRIES] times, sleeps 1, 2, ..., [MAX_RETRIES] retry delays after
    them (after the last one too) and fails with the budget error. *)
Theorem throttling_exhausts_the_budget (E : Env) (ck : Cookie.t)
        (a : GenerateArgs) (w : World)
        (Hall : throttles_from E (request_of E ck a) (posts w)) :
  exists w',
    ImageGenerator._do_generate E ck (prompt a) (width a) (height a)
      (negative_prompt a) (or_str (model a) ImageGenerator.DEFAULT_MODEL)
      (or_int (num_inference_steps a) ImageGenerator.DEFAULT_STEPS) w =
      (Ok (ImageGenerator.failed "超过最大重试次数" (Some (Cookie.id ck))), w') /\
    appended w w'
      (backoff_rounds (Cookie.id ck) (request_of E ck a) 1
                      (Z.to_nat (MAX_RETRIES E))) /\
    posts w' = (posts w + Z.to_nat (MAX_RETRIES E))%nat.
Proof.
  unfold ImageGenerator._do_generate. fold (request_of E ck a).
  apply (attempts_throttled E ck (request_of E ck a) (Z.to_nat (MAX_RETRIES E)) 0 w Hall).
Qed.

Lemma throttling_exhausts_the_budget_witness :
  throttles_from env_always_throttled (request_of env_always_throttled alice a_cat) 0 /\
  exists w',
    ImageGenerator._do_generate env_always_throttled alice "a cat" 512 512 None
      "z-image-turbo" 9 (started [alice]) =
      (Ok (ImageGenerator.failed "超过最大重试次数" (Some 1)), w') /\
    posts w' = 3%nat.
Proof.
  assert (H : throttles_from env_always_throttled
                (request_of env_always_throttled alice a_cat) 0).
  { intros k _. do 2 eexists. reflexivity. }
  split; [exact H|].
  destruct (throttling_exhausts_the_budget env_always_throttled alice a_cat
              (started [alice]) H) as (w' & Hrun & _ & Hp).
  exists w'. split; [exact Hrun|exact Hp].
Defined.

Lemma attempts_unreachable E ck rq e : forall r att w,
  unreachable_from E rq e (posts w) ->
  att + Z.of_nat (S r) = MAX_RETRIES E ->
  exists w',
    ImageGenerator.attempts E ck rq (S r) att w =
      (Ok (ImageGenerator.failed ("请求失败: " ++ e) (Some (Cookie.id ck))), w') /\
    appended w w' (flat_rounds (Cookie.id ck) rq r ++ [SessionPost (Cookie.id ck) rq]) /\
    posts w' = (posts w + S r)%nat.
Proof.
  induction r as [|r IH]; intros att w Hall Hatt.
  - cbn [ImageGenerator.attempts]. unfold bind at 1. rewrite session_post_run.
    rewrite (Hall (posts w) (le_n _)).
    assert (Hlast : (att <? MAX_RETRIES E - 1) = false) by (apply Z.ltb_ge; lia).
    rewrite Hlast. eexists. split; [reflexivity|]. unfold appended. wsimpl.
    split; [reflexivity|lia].
  - remember (S r) as r1 eqn:Hr1.
    cbn [ImageGenerator.attempts]. unfold bind at 1. rewrite session_post_run.
    rewrite (Hall (posts w) (le_n _)).
    assert (Hmore : (att <? MAX_RETRIES E - 1) = true) by (apply Z.ltb_lt; lia).
    rewrite Hmore. unfold bind at 1. unfold asyncio_sleep, emit, modify.
    set (w1 := set_trace _ (set_posts _ _)). subst r1.
    destruct (IH (att + 1) w1) as (w' & Hrun & Ha & Hp).
    { intros k Hk. apply Hall. subst w1. wsimpl. lia. }
    { lia. }
    exists w'. rewrite Hrun. split; [reflexivity|].
    unfold appended in *. subst w1. wsimpl. split; [|lia].
    rewrite Ha, flat_rounds_S. cbn [app]. rewrite <- !app_assoc. reflexivity.
Qed.

(** X9.  When every post raises the [ClientError] [e] and [MAX_RETRIES] is at
    least 1, [_do_generate] posts [MAX_RETRIES] times, sleeps one retry delay
    between two posts and fails with that error. *)
Theorem connection_errors_use_the_budget (E : Env) (ck : Cookie.t)
        (a : GenerateArgs) (w : World) (e : string)
        (Hretries : 1 <= MAX_RETRIES E)
        (Hall : unreachable_from E (request_of E ck a) e (posts w)) :
  exists w',
    ImageGenerator._do_generate E ck (prompt a) (width a) (height a)
      (negative_prompt a) (or_str (model a) ImageGenerator.DEFAULT_MODEL)
      (or_int (num_inference_steps a) ImageGenerator.DEFAULT_STEPS) w =
      (Ok (ImageGenerator.failed ("请求失败: " ++ e) (Some (Cookie.id ck))), w') /\
    appended w w'
      (flat_rounds (Cookie.id ck) (request_of E ck a)
                   (Z.to_nat (MAX_RETRIES E) - 1)
       ++ [SessionPost (Cookie.id ck) (request_of E ck a)]) /\
    posts w' = (posts w + Z.to_nat (MAX_RETRIES E))%nat.
Proof.
  unfold ImageGenerator._do_generate. fold (request_of E ck a).
  destruct (Z.to_nat (MAX_RETRIES E)) as [|r] eqn:Hr; [lia|].
  replace (S r - 1)%nat with r by lia.
  apply (attempts_unreachable E ck (request_of E ck a) e r 0 w Hall). lia.
Qed.

Lemma connection_errors_use_the_budget_witness :
  1 <= MAX_RETRIES env_unreachable /\
  unreachable_from env_unreachable (request_of env_unreachable alice a_cat)
                   "Cannot connect to host" 0 /\
  exists w',
    ImageGenerator._do_generate env_unreachable alice "a cat" 512 512 None
      "z-image-turbo" 9 (started [alice]) =
      (Ok (ImageGenerator.failed "请求失败: Cannot connect to host" (Some 1)), w') /\
    posts w' = 3%nat.
Proof.
  assert (Hr : 1 <= MAX_RETRIES env_unreachable) by (cbn; lia).
  assert (H : unreachable_from env_unreachable
                (request_of env_unreachable alice a_cat) "Cannot connect to host" 0).
  { intros k _. reflexivity. }
  split; [exact Hr|split; [exact H|]].
  destruct (connection_errors_use_the_budget env_unreachable alice a_cat
              (started [alice]) "Cannot connect to host" Hr H)
    as (w' & Hrun & _ & Hp).
  exists w'. split; [exact Hrun|exact Hp].
Defined.

(** X17.  Whatever budget is left, the retry loop ends with the post whose
    answer is neither a 429 nor a [ClientError]; a status other than 200, 429,
    401 and 400 gives the error that names the status, and an exception that
    is not a [ClientError] (a timeout, for one) the internal error. *)
Theorem only_429_and_client_errors_are_retried (E : Env) (ck : Cookie.t)
        (rq : Request) (remaining : nat) (attempt : Z) (w : World)
        (Hfinal : final_response (backend E (posts w) rq)) :
  exists result,
    ImageGenerator.attempts E ck rq (S remaining) attempt w =
      (Ok result, post_added (Cookie.id ck) rq w) /\
    (forall status text data,
       backend E (posts w) rq = Http status text data ->
       status <> 200 -> status <> 401 -> status <> 400 ->
       result = ImageGenerator.failed ("API错误: " ++ str status)
                                      (Some (Cookie.id ck))) /\
    (forall e,
       backend E (posts w) rq = OtherException e ->
       result = ImageGenerator.failed ("内部错误: " ++ e) (Some (Cookie.id ck))).
Proof.
  cbn [ImageGenerator.attempts]. unfold bind at 1. rewrite session_post_run.
  fold (post_added (Cookie.id ck) rq w).
  destruct (backend E (posts w) rq) as [status text data|e|e]; cbn in Hfinal.
  - apply Z.eqb_neq in Hfinal.
    destruct (status =? 200) eqn:H200.
    { apply Z.eqb_eq in H200.
      destruct data as [e| |b64 url|msg];
        [| |destruct (truthy b64); [|destruct (truthy url)]|];
        (eexists; split; [reflexivity|]; split;
         [intros s t d Heq; injection Heq as <- _ _; congruence
         |intros e0 Heq; discriminate]). }
    rewrite Hfinal.
    destruct (status =? 401) eqn:H401.
    { apply Z.eqb_eq in H401. eexists. split; [reflexivity|]. split.
      - intros s t d Heq. injection Heq as <- _ _. congruence.
      - intros e0 Heq. discriminate. }
    destruct (status =? 400) eqn:H400.
    { apply Z.eqb_eq in H400. eexists. split; [reflexivity|]. split.
      - intros s t d Heq. injection Heq as <- _ _. congruence.
      - intros e0 Heq. discriminate. }
    eexists. split; [reflexivity|]. split.
    + intros s t d Heq _ _ _. injection Heq as <- _ _. reflexivity.
    + intros e0 Heq. discriminate.
  - contradiction.
  - eexists. split; [reflexivity|]. split.
    + intros s t d Heq. discriminate.
    + intros e0 Heq. injection Heq as <-. reflexivity.
Qed.

Lemma only_429_and_client_errors_are_retried_witness :
  final_response (backend env_down 0 (request_of env_down alice a_cat)) /\
  ImageGenerator.attempts env_down alice (request_of env_down alice a_cat) 3 0
    (started [alice]) =
  (Ok (ImageGenerator.failed "API错误: 503" (Some 1)),
   post_added 1 (request_of env_down alice a_cat) (started [alice])).
Proof.
  assert (H : final_response (backend env_down 0 (request_of env_down alice a_cat)))
    by (cbn; lia).
  split; [exact H|].
  destruct (only_429_and_client_errors_are_retried env_down alice
              (request_of env_down alice a_cat) 2 0 (started [alice]) H)
    as (result & Hrun & H5 & _).
  rewrite Hrun. f_equal. f_equal.
  apply (H5 503 "Service Unavailable" (JsonInvalid "not json")); [reflexivity|lia|lia|lia].
Defined.

Lemma failed_well_formed e i : well_formed (ImageGenerator.failed e i).
Proof. cbn. repeat split. discriminate. Qed.

Lemma attempts_well_formed E ck rq : forall r att w res w',
  ImageGenerator.attempts E ck rq r att w = (Ok res, w') -> well_formed res.
Proof.
  induction r as [|r IH]; intros att w res w' Hrun.
  - cbn in Hrun. injection Hrun as <- _. apply failed_well_formed.
  - cbn [ImageGenerator.attempts] in Hrun. unfold bind at 1 in Hrun.
    rewrite session_post_run in Hrun.
    destruct (backend E (posts w) rq) as [status text data|e|e].
    + destruct (status =? 200).
      { destruct data as [e| |b64 url|msg];
          try (injection Hrun as <- _; apply failed_well_formed).
        destruct (truthy b64) eqn:Hb.
        { injection Hrun as <- _. cbn. rewrite Hb. repeat split. discriminate. }
        destruct (truthy url) eqn:Hu.
        { injection Hrun as <- _. cbn. rewrite Hu. repeat split. discriminate. }
        injection Hrun as <- _. apply failed_well_formed. }
      destruct (status =? 429).
      { unfold bind at 1 in Hrun. unfold asyncio_sleep, emit, modify in Hrun.
        eapply IH. exact Hrun. }
      destruct (status =? 401); [injection Hrun as <- _; apply failed_well_formed|].
      destruct (status =? 400); injection Hrun as <- _; apply failed_well_formed.
    + destruct (att <? MAX_RETRIES E - 1).
      * unfold bind at 1 in Hrun. unfold asyncio_sleep, emit, modify in Hrun.
        eapply IH. exact Hrun.
      * injection Hrun as <- _. apply failed_well_formed.
    + injection Hrun as <- _. apply failed_well_formed.
Qed.

(** One call of [generate], with what it recorded. *)
Lemma generate_ledger E a w :
  pool_ok w ->
  exists result w' evs,
    ImageGenerator.generate E a w = (Ok result, w') /\
    appended w w' evs /\ pool_ok w' /\ well_formed result /\
    (List.length (posted evs) <= Z.to_nat (MAX_RETRIES E))%nat /\
    (recorded evs = [] /\ GenerationResult.success result = false \/
     exists i, GenerationResult.cookie_id result = Some i /\
               recorded evs = [(i, GenerationResult.success result)]).
Proof.
  intros Hok.
  destruct (generate_accounts E a w Hok) as (r & w' & evs & Hg & Ha & Hok' & Hacc).
  exists r, w', evs. split; [exact Hg|]. split; [exact Ha|]. split; [exact Hok'|].
  unfold obtained in Hacc. destruct (valid_size a) eqn:Hv.
  2:{ rewrite (generate_invalid E a w Hv) in Hg. injection Hg as <- _.
      destruct Hacc as (Hr & _ & Hp & _). rewrite Hp. cbn [List.length].
      split; [cbn; repeat split; discriminate|]. split; [lia|].
      left. split; [exact Hr|reflexivity]. }
  destruct (get_next_cookie_frame E w Hok) as (sel & w1 & evs1 & Hsel & _).
  rewrite Hsel in Hacc. cbn [fst] in Hacc.
  destruct sel as [ck|].
  2:{ rewrite (generate_none E a w w1 Hv Hsel) in Hg. injection Hg as <- _.
      destruct Hacc as (Hr & _ & Hp & _). rewrite Hp. cbn [List.length].
      split; [cbn; repeat split; discriminate|]. split; [lia|].
      left. split; [exact Hr|reflexivity]. }
  destruct (attempts_run E ck (request_of E ck a) (Z.to_nat (MAX_RETRIES E)) 0 w1)
    as (result & w2 & evs2 & Hatt & _ & _ & _ & _ & _ & _ & _ & _ & _ & _ & Hid).
  rewrite (generate_some E a w w1 ck result w2 Hv Hsel Hatt) in Hg.
  injection Hg as <- _.
  destruct Hacc as (Hr & _ & _ & _ & Hlen).
  split; [eapply attempts_well_formed; exact Hatt|]. split; [exact Hlen|].
  right. exists (Cookie.id ck). split; assumption.
Qed.

(** A whole request, with what it recorded: failures, then at most one
    success, which is the one the result names. *)
Lemma retries_ledger E a : forall n last w,
  pool_ok w ->
  exists result w' evs fails,
    ImageGenerator.retries E a n last w = (Ok result, w') /\
    appended w w' evs /\ well_formed result /\
    (List.length (posted evs) <= n * Z.to_nat (MAX_RETRIES E))%nat /\
    recorded evs =
      (map (fun i => (i, false)) fails ++
       (if GenerationResult.success result
        then match GenerationResult.cookie_id result with
             | Some i => [(i, true)]
             | None => []
             end
        else []))%list /\
    (List.length (recorded evs) <= n)%nat.
Proof.
  induction n as [|n IH]; intros last w Hok.
  - eexists. exists w, [], []. split; [reflexivity|].
    unfold appended. rewrite app_nil_r. cbn.
    repeat split; try lia. discriminate.
  - destruct (generate_ledger E a w Hok)
      as (r1 & w1 & evs1 & Hg & Ha1 & Hok1 & Hwf1 & Hp1 & Hrec1).
    cbn [ImageGenerator.retries]. unfold bind at 1. rewrite Hg.
    destruct (GenerationResult.success r1) eqn:Hs1.
    + destruct Hrec1 as [(_ & Hf)|(i & Hid & Hr1)]; [discriminate|].
      exists r1, w1, evs1, []. split; [reflexivity|]. split; [exact Ha1|].
      split; [exact Hwf1|]. rewrite Hs1, Hid, Hr1. cbn.
      repeat split; lia.
    + destruct (IH (GenerationResult.error r1) w1 Hok1)
        as (r2 & w2 & evs2 & fails & Hrun & Ha2 & Hwf2 & Hp2 & Hrec2 & Hlen2).
      assert (Hsplit : exists fails1,
                recorded evs1 = map (fun i => (i, false)) fails1 /\
                (List.length fails1 <= 1)%nat).
      { destruct Hrec1 as [(Hr1 & _)|(i & Hid & Hr1)].
        - exists []. split; [exact Hr1|cbn; lia].
        - exists [i]. split; [exact Hr1|cbn; lia]. }
      destruct Hsplit as (fails1 & Hr1 & Hl1).
      exists r2, w2, (evs1 ++ evs2)%list, (fails1 ++ fails)%list.
      rewrite Hrun. split; [reflexivity|].
      unfold appended in *. rewrite posted_app, recorded_app, !length_app.
      split; [rewrite Ha2, Ha1, app_assoc; reflexivity|].
      split; [exact Hwf2|]. split; [lia|].
      rewrite Hr1, Hrec2, map_app, <- app_assoc. split; [reflexivity|].
      rewrite Hrec2 in Hlen2. rewrite length_map. lia.
Qed.

(** X10.  The result of a request is either a success with an image (base64
    or url), no error and the id of a credential, or a failure with an error
    and no image. *)
Theorem result_is_image_or_error (E : Env) (a : GenerateArgs)
        (max_cookie_retries : Z) (w : World) (Hok : pool_ok w) :
  exists result w',
    ImageGenerator.generate_with_retry E a max_cookie_retries w = (Ok result, w') /\
    well_formed result.
Proof.
  unfold ImageGenerator.generate_with_retry.
  destruct (retries_ledger E a (Z.to_nat max_cookie_retries) None w Hok)
    as (r & w' & evs & fails & Hrun & _ & Hwf & _).
  exists r, w'. split; assumption.
Qed.

Lemma result_is_image_or_error_witness :
  pool_ok (started [alice]) /\
  exists result w',
    ImageGenerator.generate_with_retry env_throttled a_cat 3 (started [alice]) =
      (Ok result, w') /\
    well_formed result.
Proof.
  assert (Hok : pool_ok (started [alice])) by (left; reflexivity).
  split; [exact Hok|].
  exact (result_is_image_or_error env_throttled a_cat 3 (started [alice]) Hok).
Defined.

(** X11.  A request posts at most [max_cookie_retries * MAX_RETRIES] times
    and records and logs at most [max_cookie_retries] outcomes; with
    [max_cookie_retries <= 0] it does nothing at all and reports the error
    of no iteration. *)
Theorem request_budget (E : Env) (a : GenerateArgs) (max_cookie_retries : Z)
        (w : World) (Hok : pool_ok w) :
  exists result w' evs,
    ImageGenerator.generate_with_retry E a max_cookie_retries w = (Ok result, w') /\
    appended w w' evs /\
    (List.length (posted evs)
     <= Z.to_nat max_cookie_retries * Z.to_nat (MAX_RETRIES E))%nat /\
    (List.length (recorded evs) <= Z.to_nat max_cookie_retries)%nat /\
    (List.length (logged evs) <= Z.to_nat max_cookie_retries)%nat /\
    (max_cookie_retries <= 0 -> result = all_failed None /\ w' = w).
Proof.
  unfold ImageGenerator.generate_with_retry.
  destruct (retries_ledger E a (Z.to_nat max_cookie_retries) None w Hok)
    as (r & w' & evs & fails & Hrun & Ha & _ & Hp & _ & Hlen).
  destruct (retries_accounts E a (Z.to_nat max_cookie_retries) None w Hok)
    as (r0 & w0 & evs0 & Hrun0 & Ha0 & _ & _ & Hout).
  rewrite Hrun in Hrun0. injection Hrun0 as <- <-.
  assert (evs0 = evs).
  { unfold appended in *. rewrite Ha in Ha0. apply app_inv_head in Ha0. congruence. }
  subst evs0.
  exists r, w', evs. repeat split; try assumption.
  - apply (f_equal (@List.length _)) in Hout. rewrite !length_map in Hout. lia.
  - destruct (Z.to_nat max_cookie_retries) eqn:Hn; [|lia].
    cbn in Hrun. injection Hrun as <- _. reflexivity.
  - destruct (Z.to_nat max_cookie_retries) eqn:Hn; [|lia].
    cbn in Hrun. injection Hrun as _ <-. reflexivity.
Qed.

Lemma request_budget_witness :
  pool_ok (started [alice; bob]) /\
  exists result w' evs,
    ImageGenerator.generate_with_retry env_bad_request a_cat 3 (started [alice; bob]) =
      (Ok result, w') /\
    appended (started [alice; bob]) w' evs /\
    (List.length (posted evs) <= 9)%nat.
Proof.
  assert (Hok : pool_ok (started [alice; bob])) by (left; reflexivity).
  split; [exact Hok|].
  destruct (request_budget env_bad_request a_cat 3 (started [alice; bob]) Hok)
    as (r & w' & evs & Hrun & Ha & Hp & _).
  exists r, w', evs. repeat split; assumption.
Defined.

(** X12.  What a request records is a list of failures followed, when the
    request succeeds, by one success, for the credential its result names. *)
Theorem request_records_one_success_at_most (E : Env) (a : GenerateArgs)
        (max_cookie_retries : Z) (w : World) (Hok : pool_ok w) :
  exists result w' evs fails,
    ImageGenerator.generate_with_retry E a max_cookie_retries w = (Ok result, w') /\
    appended w w' evs /\
    recorded evs =
      (map (fun i => (i, false)) fails ++
       (if GenerationResult.success result
        then match GenerationResult.cookie_id result with
             | Some i => [(i, true)]
             | None => []
             end
        else []))%list /\
    (GenerationResult.success result = true ->
     GenerationResult.cookie_id result <> None).
Proof.
  unfold ImageGenerator.generate_with_retry.
  destruct (retries_ledger E a (Z.to_nat max_cookie_retries) None w Hok)
    as (r & w' & evs & fails & Hrun & Ha & Hwf & _ & Hrec & _).
  exists r, w', evs, fails. repeat split; try assumption.
  intros Hs. unfold well_formed in Hwf. rewrite Hs in Hwf. tauto.
Qed.

Lemma request_records_one_success_at_most_witness :
  pool_ok (started [alice]) /\
  exists result w' evs fails,
    ImageGenerator.generate_with_retry env_throttled a_cat 3 (started [alice]) =
      (Ok result, w') /\
    appended (started [alice]) w' evs /\
    recorded evs =
      (map (fun i => (i, false)) fails ++
       (if GenerationResult.success result
        then match GenerationResult.cookie_id result with
             | Some i => [(i, true)]
             | None => []
             end
        else []))%list.
Proof.
  assert (Hok : pool_ok (started [alice])) by (left; reflexivity).
  split; [exact Hok|].
  destruct (request_records_one_success_at_most env_throttled a_cat 3
              (started [alice]) Hok)
    as (r & w' & evs & fails & Hrun & Ha & Hrec & _).
  exists r, w', evs, fails. repeat split; assumption.
Defined.

(** X13.  With [MAX_RETRIES <= 0] a call of [generate] that obtains a
    credential never posts, fails with the budget error and still counts an
    error against that credential. *)
Theorem zero_budget_charges_without_posting (E : Env) (a : GenerateArgs)
        (w w1 : World) (ck : Cookie.t)
        (Hvalid : valid_size a = true)
        (Hsel : CookiePool.get_next_cookie E w = (Ok (Some ck), w1))
        (Hzero : MAX_RETRIES E <= 0) :
  exists w',
    ImageGenerator.generate E a w =
      (Ok (ImageGenerator.failed "超过最大重试次数" (Some (Cookie.id ck))), w') /\
    appended w1 w'
      (mark_events (Cookie.id ck) false
       ++ [DbAddGenerationLog
             (log_of a ck (ImageGenerator.failed "超过最大重试次数"
                                                 (Some (Cookie.id ck))))]) /\
    posts w' = posts w1 /\
    Database.select_by_id (Cookie.id ck) (cookies w') =
    option_map
      (fun row => Database.count_error
         (if Database.date_is (Cookie.daily_date row)
                              (strftime_date (clock E (clock_reads w1)))
          then row
          else Database.reset_daily (strftime_date (clock E (clock_reads w1))) row))
      (Database.select_by_id (Cookie.id ck) (cookies w1)).
Proof.
  assert (Hatt : ImageGenerator.attempts E ck (request_of E ck a)
                   (Z.to_nat (MAX_RETRIES E)) 0 w1 =
                 (Ok (ImageGenerator.failed "超过最大重试次数" (Some (Cookie.id ck))), w1)).
  { replace (Z.to_nat (MAX_RETRIES E)) with 0%nat by lia. reflexivity. }
  rewrite (generate_some E a w w1 ck _ w1 Hvalid Hsel Hatt).
  eexists. split; [reflexivity|].
  destruct (marked_frame E (Cookie.id ck) false w1) as (Ha & _ & Hp & _).
  cbn [GenerationResult.success ImageGenerator.failed].
  unfold log_added, appended in *. wsimpl.
  split; [rewrite Ha, <- app_assoc; reflexivity|].
  split; [exact Hp|].
  unfold marked. 
  destruct (refreshed_frame E true
    (set_trace (trace (usage_updated E (Cookie.id ck) false w1)
                ++ [DbGetCookie (Cookie.id ck)])
               (usage_updated E (Cookie.id ck) false w1))) as (-> & _).
  unfold usage_updated, updated_table. wsimpl.
  destruct (Database.select_by_id (Cookie.id ck) (cookies w1)) as [row|] eqn:Hrow.
  - cbn [option_map].
    destruct (Database.date_is (Cookie.daily_date row) _) eqn:Hd; cbn [negb];
      rewrite ?select_by_id_update by reflexivity; rewrite Hrow; reflexivity.
  - rewrite select_by_id_update by reflexivity. rewrite Hrow. reflexivity.
Qed.

Lemma zero_budget_charges_without_posting_witness :
  valid_size a_cat = true /\ MAX_RETRIES env_no_budget <= 0 /\
  exists w',
    ImageGenerator.generate env_no_budget a_cat (started [alice]) =
      (Ok (ImageGenerator.failed "超过最大重试次数" (Some 1)), w') /\
    posts w' = 0%nat.
Proof.
  assert (Hv : valid_size a_cat = true) by reflexivity.
  assert (Hz : MAX_RETRIES env_no_budget <= 0) by (cbn; lia).
  split; [exact Hv|split; [exact Hz|]].
  destruct (zero_budget_charges_without_posting env_no_budget a_cat
              (started [alice])
              (snd (CookiePool.get_next_cookie env_no_budget (started [alice])))
              alice Hv eq_refl Hz) as (w' & Hrun & _ & Hp & _).
  exists w'. split; [exact Hrun|exact Hp].
Defined.

Lemma select_by_id_map j f t :
  (forall c, Cookie.id (f c) = Cookie.id c) ->
  Database.select_by_id j (map f t) = option_map f (Database.select_by_id j t).
Proof.
  intros Hf. unfold Database.select_by_id.
  induction t as [|c t IH]; [reflexivity|]. cbn [map find]. rewrite Hf.
  destruct (Cookie.id c =? j); [reflexivity|exact IH].
Qed.

Lemma update_where_id_missing i f t :
  Database.select_by_id i t = None -> Database.update_where_id i f t = t.
Proof.
  unfold Database.select_by_id, Database.update_where_id.
  induction t as [|c t IH]; [reflexivity|]. cbn [map find].
  destruct (Cookie.id c =? i); [discriminate|].
  intros H. rewrite IH by exact H. reflexivity.
Qed.

Lemma matched_iff_selected i t :
  Database.matched i t = match Database.select_by_id i t with
                         | Some _ => true
                         | None => false
                         end.
Proof.
  unfold Database.matched, Database.select_by_id.
  induction t as [|c t IH]; [reflexivity|]. cbn [existsb find].
  destruct (Cookie.id c =? i); [reflexivity|exact IH].
Qed.

Lemma select_by_id_id i t row :
  Database.select_by_id i t = Some row -> Cookie.id row = i.
Proof.
  unfold Database.select_by_id. intros H. apply find_some in H as (_ & H).
  apply Z.eqb_eq. exact H.
Qed.

(** X14.  [reset_daily_usage_if_needed] changes no usage reading of its day,
    dates the row of its id today without touching the lifetime counters, and
    a second reset on that day changes nothing. *)
Theorem reset_is_invisible_to_reads (E : Env) (w : World) (i : Z) :
  exists w',
    Database.reset_daily_usage_if_needed E i w = (Ok tt, w') /\
    (forall j,
       Database.daily_usage_on (strftime_date (clock E (clock_reads w))) j (cookies w') =
       Database.daily_usage_on (strftime_date (clock E (clock_reads w))) j (cookies w)) /\
    Database.reset_stale (strftime_date (clock E (clock_reads w))) i (cookies w') =
      cookies w' /\
    (forall row,
       Database.select_by_id i (cookies w) = Some row ->
       exists row',
         Database.select_by_id i (cookies w') = Some row' /\
         Cookie.daily_date row' = Some (strftime_date (clock E (clock_reads w))) /\
         Cookie.use_count row' = Cookie.use_count row /\
         Cookie.error_count row' = Cookie.error_count row) /\
    trace w' = trace w.
Proof.
  set (today := strftime_date (clock E (clock_reads w))).
  exists (set_cookies (Database.reset_stale today i (cookies w))
            (set_clock_reads (S (clock_reads w)) w)).
  split; [reflexivity|]. wsimpl.
  set (f := fun c : Cookie.t =>
              if (Cookie.id c =? i) && negb (Database.date_is (Cookie.daily_date c) today)
              then Database.reset_daily today c else c).
  assert (Hid : forall c, Cookie.id (f c) = Cookie.id c).
  { intros c. unfold f. destruct (_ && _); reflexivity. }
  change (Database.reset_stale today i (cookies w)) with (map f (cookies w)).
  split; [|split; [|split]].
  - intros j. unfold Database.daily_usage_on. rewrite select_by_id_map by exact Hid.
    destruct (Database.select_by_id j (cookies w)) as [row|]; [|reflexivity].
    cbn [option_map]. unfold f.
    destruct (Cookie.id row =? i); cbn [andb]; [|reflexivity].
    destruct (Database.date_is (Cookie.daily_date row) today) eqn:Hd; cbn [negb];
      [rewrite Hd; reflexivity|].
    cbn. rewrite Z.eqb_refl. reflexivity.
  - unfold Database.reset_stale. fold f. rewrite map_map. apply map_ext.
    intros c. unfold f at 1. rewrite Hid. unfold f.
    destruct (Cookie.id c =? i); cbn [andb]; [|reflexivity].
    destruct (Database.date_is (Cookie.daily_date c) today) eqn:Hd; cbn [negb].
    + rewrite Hd. reflexivity.
    + cbn. rewrite Z.eqb_refl. reflexivity.
  - intros row Hrow. exists (f row). rewrite select_by_id_map by exact Hid.
    rewrite Hrow. split; [reflexivity|].
    unfold f. rewrite (select_by_id_id _ _ _ Hrow), Z.eqb_refl. cbn [andb].
    destruct (Database.date_is (Cookie.daily_date row) today) eqn:Hd; cbn [negb].
    + repeat split. unfold Database.date_is in Hd.
      destruct (Cookie.daily_date row) as [d|]; [|discriminate].
      apply Z.eqb_eq in Hd. congruence.
    + repeat split.
  - reflexivity.
Qed.

Lemma same_counters_refl t : Forall2 same_counters t t.
Proof.
  induction t as [|c t IH]; constructor; [|exact IH].
  unfold same_counters. repeat split.
Qed.

Lemma set_editable_same_counters i cookie t :
  Forall2 same_counters t
    (Database.update_where_id i (Database.set_editable cookie) t).
Proof.
  unfold Database.update_where_id.
  induction t as [|c t IH]; cbn [map]; constructor; [|exact IH].
  destruct (Cookie.id c =? i); unfold same_counters; repeat split.
Qed.

(** X15.  [CookiePool.update_cookie] returns whether the id has a row; the
    row then carries the given label, token, proxy and active flag, each kept
    as stored where the argument is [None]; no counter of any row changes, the
    rows of other ids are untouched, and the cache of the pool is not
    reloaded. *)
Theorem update_cookie_keeps_counters (w : World) (i : Z)
        (name cookie_value socks5_proxy : option string) (is_active : option bool) :
  exists w',
    CookiePool.update_cookie i name cookie_value socks5_proxy is_active w =
      (Ok (Database.matched i (cookies w)), w') /\
    Database.select_by_id i (cookies w') =
      option_map (edited name cookie_value socks5_proxy is_active)
                 (Database.select_by_id i (cookies w)) /\
    (Database.matched i (cookies w) = false -> cookies w' = cookies w) /\
    (forall j, j <> i ->
       Database.select_by_id j (cookies w') = Database.select_by_id j (cookies w)) /\
    Forall2 same_counters (cookies w) (cookies w') /\
    _cookies_cache w' = _cookies_cache w /\ _cache_time w' = _cache_time w.
Proof.
  unfold CookiePool.update_cookie, Database.get_cookie.
  cbv beta iota delta [bind ret get modify emit].
  wsimpl. rewrite (matched_iff_selected i (cookies w)).
  destruct (Database.select_by_id i (cookies w)) as [row|] eqn:Hrow.
  - unfold Database.update_cookie. cbv beta iota delta [bind ret get modify].
    wsimpl. cbn [Cookie.id].
    pose proof (select_by_id_id _ _ _ Hrow) as Hi. rewrite Hi.
    rewrite (matched_iff_selected i (cookies w)), Hrow.
    eexists. split; [reflexivity|]. wsimpl.
    split; [|split; [|split; [|split]]].
    + rewrite select_by_id_update by reflexivity. rewrite Hrow. cbn [option_map].
      unfold edited, Database.set_editable. cbn. rewrite Hi. reflexivity.
    + discriminate.
    + intros j Hj. apply select_by_id_other; [congruence|reflexivity].
    + apply set_editable_same_counters.
    + split; reflexivity.
  - eexists. split; [reflexivity|]. wsimpl.
    split; [rewrite Hrow; reflexivity|]. split; [reflexivity|].
    split; [reflexivity|]. split; [|split; reflexivity].
    apply same_counters_refl.
Qed.

Lemma select_by_id_filter_out i j t :
  Database.select_by_id j (filter (fun c => negb (Cookie.id c =? i)) t) =
  if j =? i then None else Database.select_by_id j t.
Proof.
  unfold Database.select_by_id.
  induction t as [|c t IH]; cbn [filter find]; [destruct (j =? i); reflexivity|].
  destruct (Cookie.id c =? i) eqn:Hci; cbn [negb].
  - rewrite IH. destruct (j =? i) eqn:Hji; [reflexivity|].
    apply Z.eqb_eq in Hci. apply Z.eqb_neq in Hji.
    assert (Hcj : (Cookie.id c =? j) = false) by (apply Z.eqb_neq; congruence).
    rewrite Hcj. reflexivity.
  - cbn [find]. rewrite IH. destruct (j =? i) eqn:Hji.
    + apply Z.eqb_eq in Hji. subst j. rewrite Hci. reflexivity.
    + reflexivity.
Qed.

(** X16.  [delete_cookie] returns whether the id had a row; afterwards the
    id has none, its usage reads 0, recording an outcome for it changes
    nothing, a second delete returns [False]; the rows of other ids are
    untouched and the cache of the pool is not reloaded. *)
Theorem delete_cookie_forgets_the_row (E : Env) (w : World) (i : Z) :
  exists w',
    CookiePool.delete_cookie i w = (Ok (Database.matched i (cookies w)), w') /\
    Database.select_by_id i (cookies w') = None /\
    (forall j, j <> i ->
       Database.select_by_id j (cookies w') = Database.select_by_id j (cookies w)) /\
    _cookies_cache w' = _cookies_cache w /\
    fst (Database.get_cookie_daily_usage E i w') = Ok 0 /\
    (forall s, cookies (snd (Database.update_cookie_usage E i s w')) = cookies w') /\
    fst (CookiePool.delete_cookie i w') = Ok false.
Proof.
  unfold CookiePool.delete_cookie, Database.delete_cookie.
  cbv beta iota delta [bind ret get modify].
  eexists. split; [reflexivity|]. wsimpl.
  assert (Hgone : Database.select_by_id i
                    (filter (fun c => negb (Cookie.id c =? i)) (cookies w)) = None).
  { rewrite select_by_id_filter_out, Z.eqb_refl. reflexivity. }
  split; [exact Hgone|]. split; [|split; [reflexivity|split; [|split]]].
  - intros j Hj. rewrite select_by_id_filter_out.
    apply Z.eqb_neq in Hj. rewrite Hj. reflexivity.
  - rewrite daily_usage_run. cbn [fst]. unfold usage_at, Database.daily_usage_on.
    wsimpl. rewrite Hgone. reflexivity.
  - intros s. rewrite update_cookie_usage_run. cbn [snd].
    unfold usage_updated, updated_table. wsimpl. rewrite Hgone.
    destruct s; apply update_where_id_missing; exact Hgone.
  - cbn [fst]. rewrite matched_iff_selected, Hgone. reflexivity.
Qed.
